(** * ConversationCost: the cost estimate of a chat conversation

    A shallow embedding of [client/src/components/Chat/ConversationCost.tsx]:
    the pricing table, the model resolver [getBaseModel], the streaming
    merge [allMessages], the aggregation [costData] with its token
    extraction, per-model cost map and primary model, and the display
    helpers [formatCost] and [getCostColorClass].

    Conventions of the embedding.
    - A JavaScript number that holds a cost or a price is an exact rational
      ([Qc]) or [NaN].  Token counts are integers ([Z]).
    - Strings are sequences of 8-bit characters; [toLowerCase] folds the
      ASCII letters, which is what model identifiers are made of.
    - An optional property of a message is absent, present with [null] or
      [undefined], or present with a value; reading it gives [None] in the
      first two cases and [Some v] in the third.
    - Sums and products of costs are exact: the rounding of binary64 is
      not modelled, and the statements are kept to values and to facts of
      order and sign on which binary64 agrees.
    - A JavaScript [Map] is an association list in insertion order, an
      object literal is an association list in declaration order. *)

From Stdlib Require Import ZArith QArith Qcanon Qround String Ascii List Bool Lia.
From Stdlib Require Import DecimalString.
From stdpp Require Import base option list numbers strings.

Local Open Scope string_scope.
Local Open Scope Z_scope.

(* ------------------------------------------------------------------ *)
(** ** JavaScript values used by the component *)

Module JS.

(** A number: an exact rational or NaN. *)
Inductive number : Type :=
| Num (q : Qc)
| NaN.

Definition zero : number := Num 0%Qc.

Definition ofZ (n : Z) : number := Num (Qc_of_Z n).

(** [a + b].  The sum is the exact one; binary64 would round it. *)
Definition add (a b : number) : number :=
  match a, b with
  | Num x, Num y => Num (x + y)%Qc
  | _, _ => NaN
  end.

(** [a * b].  The product is the exact one; binary64 would round it. *)
Definition mul (a b : number) : number :=
  match a, b with
  | Num x, Num y => Num (x * y)%Qc
  | _, _ => NaN
  end.

(** Division by a non-zero rational constant, exact as well. *)
Definition divc (a : number) (d : Qc) : number :=
  match a with
  | Num x => Num (x / d)%Qc
  | NaN => NaN
  end.

(** [a < b]; every comparison with NaN is false. *)
Definition ltb (a b : number) : bool :=
  match a, b with
  | Num x, Num y => bool_decide (x < y)%Qc
  | _, _ => false
  end.

(** [a > b]. *)
Definition gtb (a b : number) : bool := ltb b a.

(** [a === 0]. *)
Definition is_zero (a : number) : bool :=
  match a with
  | Num x => bool_decide (x = 0%Qc)
  | NaN => false
  end.

(** ToBoolean on a number: 0 and NaN are falsy. *)
Definition truthy_number (a : number) : bool :=
  match a with
  | Num x => negb (bool_decide (x = 0%Qc))
  | NaN => false
  end.

(** What a property read of an object of type [Record<string, number>]
    can give: [undefined], a number, or an object (a function included)
    found on the prototype chain. *)
Inductive value : Type :=
| VUndefined
| VNumber (n : number)
| VObject.

Definition truthy (v : value) : bool :=
  match v with
  | VUndefined => false
  | VNumber n => truthy_number n
  | VObject => true
  end.

(** [a || b]. *)
Definition or (a b : value) : value := if truthy a then a else b.

(** ToNumber: [undefined] and objects whose string form is not numeric
    (all those of [Object.prototype]) convert to NaN. *)
Definition toNumber (v : value) : number :=
  match v with
  | VNumber n => n
  | VUndefined | VObject => NaN
  end.

(** The property names every plain object inherits from
    [Object.prototype]; each of them reads as a function, [__proto__] as
    the prototype object itself. *)
Definition OBJECT_PROTOTYPE_KEYS : list string :=
  [ "constructor"; "__defineGetter__"; "__defineSetter__"; "hasOwnProperty";
    "__lookupGetter__"; "__lookupSetter__"; "isPrototypeOf";
    "propertyIsEnumerable"; "toString"; "valueOf"; "__proto__";
    "toLocaleString" ].

(** An object literal with number-valued properties. *)
Definition record := list (string * Qc).

Fixpoint own (o : record) (k : string) : option Qc :=
  match o with
  | [] => None
  | (k', v) :: o' => if String.eqb k' k then Some v else own o' k
  end.

(** [Object.keys(o)]. *)
Definition keys (o : record) : list string := map fst o.

(** [k] names a property of [Object.prototype]. *)
Definition inherited (k : string) : bool :=
  existsb (String.eqb k) OBJECT_PROTOTYPE_KEYS.

(** [o[k]]: own properties first, then the prototype. *)
Definition get (o : record) (k : string) : value :=
  match own o k with
  | Some v => VNumber (Num v)
  | None => if inherited k then VObject else VUndefined
  end.

(** ToBoolean on an optional string: absent and the empty string are
    falsy. *)
Definition truthy_string (s : option string) : bool :=
  match s with
  | Some (String _ _) => true
  | _ => false
  end.

(** ToBoolean on an optional integer: absent and 0 are falsy. *)
Definition truthy_int (n : option Z) : bool :=
  match n with
  | Some z => negb (z =? 0)
  | None => false
  end.

(** [n || d] on an optional integer. *)
Definition or_int (n : option Z) (d : Z) : Z :=
  match n with
  | Some z => if z =? 0 then d else z
  | None => d
  end.

(** [a || b] where both are optional integers. *)
Definition or_opt_int (a b : option Z) : option Z :=
  if truthy_int a then a else b.

Definition lower_char (c : ascii) : ascii :=
  let n := nat_of_ascii c in
  if (65 <=? n)%nat && (n <=? 90)%nat then ascii_of_nat (n + 32) else c.

(** [s.toLowerCase()]. *)
Fixpoint toLowerCase (s : string) : string :=
  match s with
  | EmptyString => EmptyString
  | String c s' => String (lower_char c) (toLowerCase s')
  end.

(** [s.includes(sub)]. *)
Fixpoint includes (s sub : string) : bool :=
  String.prefix sub s ||
  match s with
  | EmptyString => false
  | String _ s' => includes s' sub
  end.

(** [arr.findIndex(p)], with [None] for -1. *)
Fixpoint findIndex {A} (p : A -> bool) (l : list A) : option nat :=
  match l with
  | [] => None
  | x :: l' => if p x then Some O else option_map S (findIndex p l')
  end.

(** Decimal digits of a natural integer. *)
Definition digits (n : Z) : string :=
  NilZero.string_of_uint (N.to_uint (Z.to_N n)).

Fixpoint zeros (k : nat) : string :=
  match k with
  | O => ""
  | S k' => String "0" (zeros k')
  end.

(** [x.toFixed(f)] for [0 < f]: the integer [n] nearest to [x * 10^f]
    (the larger one on a tie) printed with [f] digits after the point.
    Magnitudes from 10^21 on, which JavaScript prints in exponent
    notation, are printed in the same fixed notation here. *)
Definition toFixed (x : number) (f : nat) : string :=
  match x with
  | NaN => "NaN"
  | Num q =>
      let neg := bool_decide (q < 0)%Qc in
      let a : Qc := if neg then (- q)%Qc else q in
      let n := Qfloor (this a * inject_Z (10 ^ Z.of_nat f) + (1 # 2)) in
      let m := digits n in
      let m := zeros (S f - String.length m) ++ m in
      let k := String.length m in
      (if neg then "-" else "") ++
      substring 0 (k - f) m ++ "." ++ substring (k - f) f m
  end.

End JS.

Import JS.

(* ------------------------------------------------------------------ *)
(** ** Pricing table and model resolver *)

(** Model pricing data (per 1M tokens), in declaration order. *)
Definition MODEL_PRICING : JS.record :=
  [ ("gpt-4o", Q2Qc 10.0);
    ("gpt-4o-mini", Q2Qc 0.375);
    ("gpt-4-turbo", Q2Qc 20.0);
    ("gpt-4", Q2Qc 45.0);
    ("gpt-4-0613", Q2Qc 45.0);
    ("gpt-4-0314", Q2Qc 45.0);
    ("gpt-4-32k", Q2Qc 90.0);
    ("gpt-3.5-turbo", Q2Qc 1.0);
    ("gpt-3.5-turbo-16k", Q2Qc 3.5);
    ("o1", Q2Qc 37.5);
    ("o1-mini", Q2Qc 7.5);
    ("o1-preview", Q2Qc 37.5);
    ("claude-3-5-sonnet", Q2Qc 9.0);
    ("claude-3-5-haiku", Q2Qc 2.4);
    ("claude-3-opus", Q2Qc 45.0);
    ("claude-3-sonnet", Q2Qc 9.0);
    ("claude-3-haiku", Q2Qc 0.75);
    ("claude-2.1", Q2Qc 16.0);
    ("claude-2", Q2Qc 16.0);
    ("claude-instant", Q2Qc 0.8);
    ("gemini-1.5-pro", Q2Qc 6.25);
    ("gemini-1.5-flash", Q2Qc 0.375);
    ("gemini-1.5-flash-8b", Q2Qc 0.1875);
    ("gemini-pro", Q2Qc 1.0);
    ("gemini-2.0", Q2Qc 0.375);
    ("default", Q2Qc 1.0) ].

(** [Math.ceil(text.length / 4)], or 0 for the empty text. *)
Definition estimateTokens (text : string) : Z :=
  match text with
  | EmptyString => 0
  | _ => Qceiling (inject_Z (Z.of_nat (String.length text)) / 4)
  end.

Section Resolver.

(** The table the resolver reads; the component uses [MODEL_PRICING]. *)
Variable pricing : JS.record.

(** The test of the key scan: either lower-cased string contains the
    other. *)
Definition keyMatches (modelLower key : string) : bool :=
  includes modelLower (toLowerCase key) || includes (toLowerCase key) modelLower.

(** The provider patterns, checked in the order of the source. *)
Definition providerPattern (modelLower : string) : string :=
  if includes modelLower "gpt-4-32k" then "gpt-4-32k"
  else if includes modelLower "gpt-4" then "gpt-4"
  else if includes modelLower "gpt-3.5-turbo-16k" then "gpt-3.5-turbo-16k"
  else if includes modelLower "gpt-3.5" then "gpt-3.5-turbo"
  else if includes modelLower "claude-3-opus" then "claude-3-opus"
  else if includes modelLower "claude-3-sonnet" then "claude-3-sonnet"
  else if includes modelLower "claude-3-haiku" then "claude-3-haiku"
  else if includes modelLower "claude-3-5" then "claude-3-5-sonnet"
  else if includes modelLower "claude-2" then "claude-2"
  else if includes modelLower "claude-instant" then "claude-instant"
  else if includes modelLower "claude" then "claude-3-haiku"
  else if includes modelLower "gemini-1.5-pro" then "gemini-1.5-pro"
  else if includes modelLower "gemini-1.5-flash" then "gemini-1.5-flash"
  else if includes modelLower "gemini" then "gemini-1.5-flash"
  else if includes modelLower "o1-preview" then "o1-preview"
  else if includes modelLower "o1-mini" then "o1-mini"
  else if includes modelLower "o1" then "o1"
  else "default".

(** Base model name for the pricing lookup. *)
Definition getBaseModel (model : option string) : string :=
  match model with
  | None | Some EmptyString => "default"
  | Some model =>
      let modelLower := toLowerCase model in
      if truthy (JS.get pricing model) then model
      else
        match find (keyMatches modelLower) (keys pricing) with
        | Some key => key
        | None => providerPattern modelLower
        end
  end.

(** [MODEL_PRICING[baseModel] || MODEL_PRICING.default], as the
    aggregation reads it. *)
Definition priceOf (baseModel : string) : JS.value :=
  JS.or (JS.get pricing baseModel) (JS.get pricing "default").

(** The price per million tokens of a model identifier: the resolver
    followed by the table read. *)
Definition resolvePrice (model : option string) : JS.value :=
  priceOf (getBaseModel model).

End Resolver.

(* ------------------------------------------------------------------ *)
(** ** Messages *)

(** [message.usage]. *)
Record Usage : Type := {
  prompt_tokens : option Z;
  completion_tokens : option Z
}.

(** [message.tokens]. *)
Record Tokens : Type := {
  prompt : option Z;
  input : option Z;
  completion : option Z;
  output : option Z
}.

(** An optional property of a message object: not an own property of
    the object, an own property that holds [null] or [undefined], or an
    own property with a value. *)
Inductive property (A : Type) : Type :=
| Absent
| Nullish
| Present (a : A).

Arguments Absent {A}.
Arguments Nullish {A}.
Arguments Present {A} a.

(** What reading the property gives: [None] stands for [undefined] and
    [null], which the component never tells apart. *)
Definition read {A} (p : property A) : option A :=
  match p with
  | Present a => Some a
  | Absent | Nullish => None
  end.

(** The property that is absent for [None] and holds the value otherwise. *)
Definition of_option {A} (o : option A) : property A :=
  match o with
  | Some a => Present a
  | None => Absent
  end.

(** Modelled from the spec: the declaration of [TMessage] lives in
    [librechat-data-provider]; the fields are those of the data model the
    cost computation reads. *)
Record TMessage : Type := {
  conversationId : string;
  messageId : string;
  isCreatedByUser : bool;
  modelProp : property string;
  tokenCountProp : property Z;
  usageProp : property Usage;
  tokensProp : property Tokens;
  textProp : property string
}.

(** [message.model]. *)
Definition model (m : TMessage) : option string := read (modelProp m).

(** [message.tokenCount]. *)
Definition tokenCount (m : TMessage) : option Z := read (tokenCountProp m).

(** [message.usage]. *)
Definition usage (m : TMessage) : option Usage := read (usageProp m).

(** [message.tokens]. *)
Definition tokens (m : TMessage) : option Tokens := read (tokensProp m).

(** [message.text]. *)
Definition text (m : TMessage) : option string := read (textProp m).

Arguments model : simpl never.
Arguments tokenCount : simpl never.
Arguments usage : simpl never.
Arguments tokens : simpl never.
Arguments text : simpl never.

(** One property of [{ ...a, ...b }]: an own property of [b] replaces the
    one of [a], also when it holds [null] or [undefined]; a property [b]
    does not have is the one of [a]. *)
Definition spread {A} (x y : property A) : property A :=
  match y with
  | Absent => x
  | Nullish | Present _ => y
  end.

(** [{ ...a, ...b }]. *)
Definition overlay (a b : TMessage) : TMessage :=
  {| conversationId := conversationId b;
     messageId := messageId b;
     isCreatedByUser := isCreatedByUser b;
     modelProp := spread (modelProp a) (modelProp b);
     tokenCountProp := spread (tokenCountProp a) (tokenCountProp b);
     usageProp := spread (usageProp a) (usageProp b);
     tokensProp := spread (tokensProp a) (tokensProp b);
     textProp := spread (textProp a) (textProp b) |}.

(** [slot?.conversationId === conversationId], where the route parameter
    [conversationId] may be undefined. *)
Definition slotMatches (slot : option TMessage) (cid : option string) : bool :=
  match slot, cid with
  | None, None => true
  | Some m, Some c => String.eqb (conversationId m) c
  | _, _ => false
  end.

(** The latest streaming message of the observed conversation. *)
Definition latestMessage (latestMessage0 latestMessage1 latestMessage2 : option TMessage)
    (cid : option string) : option TMessage :=
  if slotMatches latestMessage0 cid then latestMessage0
  else if slotMatches latestMessage1 cid then latestMessage1
  else if slotMatches latestMessage2 cid then latestMessage2
  else None.

(** Cached messages combined with the latest streaming message. *)
Definition allMessages (messages : list TMessage) (latest : option TMessage)
    (cid : option string) : list TMessage :=
  match latest with
  | Some lm =>
      if slotMatches (Some lm) cid then
        match findIndex (fun m => String.eqb (messageId m) (messageId lm)) messages with
        | Some existingIndex =>
            alter (fun old => overlay old lm) existingIndex messages
        | None =>
            if truthy_string (text lm) then (messages ++ [lm])%list else messages
        end
      else messages
  | None => messages
  end.

(* ------------------------------------------------------------------ *)
(** ** Cost aggregation *)

(** The per-model cost [Map], in insertion order. *)
Definition CostMap := list (string * number).

(** [modelCosts.get(k)]. *)
Fixpoint map_get (m : CostMap) (k : string) : option number :=
  match m with
  | [] => None
  | (k', v) :: m' => if String.eqb k' k then Some v else map_get m' k
  end.

(** [modelCosts.set(k, v)]: an existing key keeps its place, a new key
    goes last. *)
Fixpoint map_set (m : CostMap) (k : string) (v : number) : CostMap :=
  match m with
  | [] => [(k, v)]
  | (k', v') :: m' =>
      if String.eqb k' k then (k', v) :: m' else (k', v') :: map_set m' k v
  end.

(** [modelCosts.get(k) || 0]. *)
Definition map_get_or_zero (m : CostMap) (k : string) : number :=
  match map_get m k with
  | Some v => if truthy_number v then v else zero
  | None => zero
  end.

(** The token count of a message and whether it is an estimate: the
    first of [tokenCount], [usage], [tokens], [text] that is truthy. *)
Definition extractTokens (message : TMessage) : Z * bool :=
  let fromOtherFields :=
    match usage message with
    | Some usage =>
        (or_int (prompt_tokens usage) 0 + or_int (completion_tokens usage) 0, false)
    | None =>
        match tokens message with
        | Some tokens =>
            (or_int (or_opt_int (prompt tokens) (input tokens)) 0
             + or_int (or_opt_int (completion tokens) (output tokens)) 0, false)
        | None =>
            match text message with
            | Some (String c s) => (estimateTokens (String c s), true)
            | _ => (0, false)
            end
        end
    end in
  match tokenCount message with
  | Some n => if n =? 0 then fromOtherFields else (n, false)
  | None => fromOtherFields
  end.

(** [message.model || allMessages.find((m) => m.model)?.model]. *)
Definition messageModel (all : list TMessage) (message : TMessage) : option string :=
  if truthy_string (model message) then model message
  else
    match find (fun m => truthy_string (model m)) all with
    | Some m => model m
    | None => None
    end.

(** [messageModel || 'gpt-3.5-turbo']. *)
Definition modelOrDefault (mm : option string) : string :=
  match mm with
  | Some (String c s) => String c s
  | _ => "gpt-3.5-turbo"
  end.

(** [(adjustedTokenCount / 1_000_000) * pricePerMillion], the estimate
    being discounted to 0.85 of its count. *)
Definition messageCost (tokenCount : Z) (isEstimated : bool) (pricePerMillion : JS.value)
    : number :=
  let adjustedTokenCount :=
    if isEstimated then mul (ofZ tokenCount) (Num (Q2Qc 0.85)) else ofZ tokenCount in
  mul (divc adjustedTokenCount (Q2Qc 1000000)) (toNumber pricePerMillion).

(** The variables the loop updates. *)
Record Totals : Type := {
  sumCost : number;
  sumTokens : Z;
  modelCosts : CostMap
}.

Definition noTotals : Totals :=
  {| sumCost := zero; sumTokens := 0; modelCosts := [] |}.

(** The body of [allMessages.forEach]. *)
Definition processMessage (all : list TMessage) (acc : Totals) (message : TMessage)
    : Totals :=
  let '(tokenCount, isEstimated) := extractTokens message in
  if tokenCount =? 0 then acc
  else
    let sumTokens' := sumTokens acc + tokenCount in
    let mm := messageModel all message in
    if truthy_string mm || isCreatedByUser message then
      let model := modelOrDefault mm in
      let baseModel := getBaseModel MODEL_PRICING (Some model) in
      let pricePerMillion := priceOf MODEL_PRICING baseModel in
      let cost := messageCost tokenCount isEstimated pricePerMillion in
      {| sumCost := add (sumCost acc) cost;
         sumTokens := sumTokens';
         modelCosts :=
           if truthy_string mm
           then map_set (modelCosts acc) model
                  (add (map_get_or_zero (modelCosts acc) model) cost)
           else modelCosts acc |}
    else
      {| sumCost := sumCost acc; sumTokens := sumTokens'; modelCosts := modelCosts acc |}.

(** The totals after the loop over all messages. *)
Definition aggregate (all : list TMessage) : Totals :=
  fold_left (processMessage all) all noTotals.

(** One turn of [modelCosts.forEach]: a cost above [maxCost] takes over. *)
Definition primaryStep (st : string * number) (entry : string * number)
    : string * number :=
  let '(primaryModel, maxCost) := st in
  let '(model, cost) := entry in
  if gtb cost maxCost then (model, cost) else (primaryModel, maxCost).

(** The primary model (most expensive). *)
Definition findPrimaryModel (costs : CostMap) : string :=
  fst (fold_left primaryStep costs ("Unknown", zero)).

Definition formatCost (cost : number) : string :=
  if is_zero cost then "$0.00"
  else if ltb cost (Num (Q2Qc 0.001)) then "<$0.001"
  else if ltb cost (Num (Q2Qc 0.01)) then "$" ++ toFixed cost 4
  else if ltb cost (Num 1%Qc) then "$" ++ toFixed cost 3
  else "$" ++ toFixed cost 2.

(** The value of the [costData] memo. *)
Record CostData : Type := {
  totalCost : string;
  totalCostRaw : number;
  primaryModel : string;
  totalTokens : Z;
  lastUpdated : Z
}.

(** Cost of all messages; [now] is the clock read by [new Date()]. *)
Definition costData (all : list TMessage) (now : Z) : option CostData :=
  match all with
  | [] => None
  | _ =>
      let acc := aggregate all in
      Some {| totalCost := formatCost (sumCost acc);
              totalCostRaw := sumCost acc;
              primaryModel := findPrimaryModel (modelCosts acc);
              totalTokens := sumTokens acc;
              lastUpdated := now |}
  end.

Definition getCostColorClass (cost : number) : string :=
  if ltb cost (Num (Q2Qc 0.01)) then "text-green-600 dark:text-green-400"
  else if ltb cost (Num (Q2Qc 0.1)) then "text-yellow-600 dark:text-yellow-400"
  else if ltb cost (Num 1%Qc) then "text-orange-600 dark:text-orange-400"
  else "text-red-600 dark:text-red-400".

(** What the component renders: nothing, the grey placeholder, or the
    cost badge (its tooltip, which depends on the locale, is left out). *)
Inductive View : Type :=
| Nothing
| Placeholder
| Badge (cost : string) (colorClass : string).

(** The rendering decisions; [NEW_CONVO] is the constant of
    [librechat-data-provider]. *)
Definition render (NEW_CONVO : string) (cid : option string) (data : option CostData)
    : View :=
  match cid with
  | Some (String c s) =>
      if String.eqb (String c s) NEW_CONVO then Nothing
      else
        match data with
        | None => Placeholder
        | Some d =>
            if is_zero (totalCostRaw d) then Placeholder
            else Badge (totalCost d) (getCostColorClass (totalCostRaw d))
        end
  | _ => Nothing
  end.

(** The whole component on one snapshot of its inputs. *)
Definition ConversationCost (NEW_CONVO : string) (cid : option string)
    (latestMessage0 latestMessage1 latestMessage2 : option TMessage)
    (messages : list TMessage) (now : Z) : View :=
  let latest := latestMessage latestMessage0 latestMessage1 latestMessage2 cid in
  render NEW_CONVO cid (costData (allMessages messages latest cid) now).

(* ------------------------------------------------------------------ *)
(** ** Vocabulary of the statements *)

(** A message that carries the given token fields and text. *)
Definition sampleMessage (id : string) (byUser : bool) (mdl : option string)
    (count : option Z) (txt : option string) : TMessage :=
  {| conversationId := "c1"; messageId := id; isCreatedByUser := byUser;
     modelProp := of_option mdl; tokenCountProp := of_option count;
     usageProp := Absent; tokensProp := Absent; textProp := of_option txt |}.

(** An optional count that is not negative. *)
Definition nonneg (n : option Z) : Prop := forall z, n = Some z -> 0 <= z.

(** A message as the data model has it: token counts are not negative.
    Its model, when it has one, is not the name of a property inherited
    from [Object.prototype], so that its price is a rate of the table. *)
Definition well_formed (m : TMessage) : Prop :=
  nonneg (tokenCount m) /\
  (forall u, usage m = Some u ->
     nonneg (prompt_tokens u) /\ nonneg (completion_tokens u)) /\
  (forall t, tokens m = Some t ->
     nonneg (prompt t) /\ nonneg (input t) /\
     nonneg (completion t) /\ nonneg (output t)) /\
  (forall s, model m = Some s -> inherited s = false).

(** Every accrued cost is a positive number. *)
Definition positive_costs (costs : CostMap) : Prop :=
  forall k v, (k, v) ∈ costs -> exists q, v = Num q /\ (0 < q)%Qc.


(** The sum of the token counts extracted from the messages. *)
Definition sum_tokens (l : list TMessage) : Z :=
  foldr (fun m s => fst (extractTokens m) + s) 0 l.

(** The keys of a per-model map, in insertion order. *)
Definition costKeys (m : CostMap) : list string := map fst m.

(** What a message costs when no message of the conversation names a
    model: a user-authored message with tokens is priced as
    ["gpt-3.5-turbo"], any other message costs nothing. *)
Definition userDefaultCost (m : TMessage) : number :=
  if isCreatedByUser m && negb (fst (extractTokens m) =? 0)
  then messageCost (fst (extractTokens m)) (snd (extractTokens m))
         (resolvePrice MODEL_PRICING (Some "gpt-3.5-turbo"))
  else zero.

(** The message ids of a sequence. *)
Definition messageIds (l : list TMessage) : list string := map messageId l.

(* ------------------------------------------------------------------ *)
(** ** Facts about lists, maps and numbers *)

Local Open Scope nat_scope.

(** [find] returns the first element that passes the test. *)
Lemma find_first {A} (p : A -> bool) (l : list A) (x : A) :
  find p l = Some x <->
  exists i, l !! i = Some x /\ p x = true /\
            forall j y, j < i -> l !! j = Some y -> p y = false.
Proof.
  induction l as [|a l IH]; simpl.
  - split; [discriminate|]. intros (i & Hi & _). by destruct i.
  - destruct (p a) eqn:Hpa.
    + split.
      * intros [= ->]. exists 0. repeat split; auto. intros j y Hj. lia.
      * intros (i & Hi & Hpx & Hbefore). destruct i as [|i]; simpl in Hi.
        { congruence. }
        specialize (Hbefore 0 a (Nat.lt_0_succ i) eq_refl). congruence.
    + rewrite IH. split.
      * intros (i & Hi & Hpx & Hbefore). exists (S i). repeat split; auto.
        intros [|j] y Hj Hy; simpl in Hy.
        { congruence. }
        apply (Hbefore j); [lia|done].
      * intros (i & Hi & Hpx & Hbefore). destruct i as [|i]; simpl in Hi.
        { congruence. }
        exists i. repeat split; auto.
        intros j y Hj Hy. apply (Hbefore (S j)); [lia|done].
Qed.

Lemma find_some_elem {A} (p : A -> bool) (l : list A) (x : A) :
  find p l = Some x -> x ∈ l /\ p x = true.
Proof.
  intros (i & Hi & Hp & _)%find_first. split; [|done].
  by eapply list_elem_of_lookup_2.
Qed.

(** [findIndex] returns the first index whose element passes the test. *)
Lemma findIndex_Some {A} (p : A -> bool) (l : list A) (i : nat) :
  findIndex p l = Some i ->
  exists x, l !! i = Some x /\ p x = true /\
            forall j y, j < i -> l !! j = Some y -> p y = false.
Proof.
  revert i. induction l as [|a l IH]; simpl; intros i; [discriminate|].
  destruct (p a) eqn:Hpa.
  - intros [= <-]. exists a. repeat split; auto. intros j y Hj. lia.
  - destruct (findIndex p l) as [i'|] eqn:Hfi; simpl; [|discriminate].
    intros [= <-]. destruct (IH i' eq_refl) as (x & Hx & Hpx & Hbefore).
    exists x. repeat split; auto.
    intros [|j] y Hj Hy; simpl in Hy.
    + congruence.
    + apply (Hbefore j); [lia|done].
Qed.

Lemma findIndex_None {A} (p : A -> bool) (l : list A) :
  findIndex p l = None -> forall x, x ∈ l -> p x = false.
Proof.
  induction l as [|a l IH]; simpl; intros Hfi x Hx.
  - by apply elem_of_nil in Hx.
  - destruct (p a) eqn:Hpa; [discriminate|].
    destruct (findIndex p l); [discriminate|].
    apply elem_of_cons in Hx as [->|Hx]; auto.
Qed.

Lemma own_Some_key (o : JS.record) (k : string) (v : Qc) :
  own o k = Some v -> k ∈ keys o.
Proof.
  induction o as [|[k' v'] o IH]; simpl; [discriminate|].
  destruct (String.eqb k' k) eqn:Hk.
  - apply String.eqb_eq in Hk as ->. intros _. apply elem_of_cons. by left.
  - intros H. apply elem_of_cons. right. by apply IH.
Qed.

(** Two numbers are equal when their rationals are. *)
Lemma Num_eq (a b : Qc) : (this a == this b)%Q -> Num a = Num b.
Proof. intros H. f_equal. by apply Qc_is_canon. Qed.

Lemma VNumber_eq (a b : Qc) : (this a == this b)%Q -> VNumber (Num a) = VNumber (Num b).
Proof. intros H. f_equal. by apply Num_eq. Qed.

(** Evaluates both sides of an equation between numbers. *)
Ltac js_eval :=
  vm_compute;
  first [ apply VNumber_eq; reflexivity
        | apply Num_eq; reflexivity
        | reflexivity ].

Lemma or_same (v : JS.value) : JS.or v v = v.
Proof. unfold JS.or. by destruct (truthy v). Qed.

Local Close Scope nat_scope.

(* ------------------------------------------------------------------ *)
(** ** The model resolver *)

(** C5. [resolvePrice(null)] and [resolvePrice("")] are the default rate:
    whatever the pricing table holds, a null or empty identifier resolves
    to the key ["default"] before any table key is looked at, and the
    price read is the table's [default] entry, 1.0 for the shipped table. *)
Theorem resolvePrice_null_empty (pricing : JS.record) :
  getBaseModel pricing None = "default" /\
  getBaseModel pricing (Some "") = "default" /\
  resolvePrice pricing None = JS.get pricing "default" /\
  resolvePrice pricing (Some "") = JS.get pricing "default" /\
  resolvePrice MODEL_PRICING None = VNumber (Num 1%Qc) /\
  resolvePrice MODEL_PRICING (Some "") = VNumber (Num 1%Qc).
Proof.
  assert (Hdefault : JS.get MODEL_PRICING "default" = VNumber (Num 1%Qc)).
  { js_eval. }
  assert (Hnull : resolvePrice pricing None = JS.get pricing "default").
  { unfold resolvePrice, priceOf. simpl. apply or_same. }
  assert (Hempty : resolvePrice pricing (Some "") = JS.get pricing "default").
  { unfold resolvePrice, priceOf. simpl. apply or_same. }
  split_and!; try reflexivity; assumption.
Qed.

(** The scan of the table keys picks the first key, in declaration order,
    that contains the lower-cased identifier or is contained in it. *)
Lemma getBaseModel_scan (pricing : JS.record) (model key : string) (i : nat) :
  model <> "" ->
  truthy (JS.get pricing model) = false ->
  keys pricing !! i = Some key ->
  keyMatches (toLowerCase model) key = true ->
  (forall j k, (j < i)%nat -> keys pricing !! j = Some k ->
               keyMatches (toLowerCase model) k = false) ->
  getBaseModel pricing (Some model) = key.
Proof.
  intros Hne Hexact Hi Hmatch Hfirst.
  assert (Hfind : find (keyMatches (toLowerCase model)) (keys pricing) = Some key).
  { apply find_first. exists i. auto. }
  unfold getBaseModel. destruct model as [|c s]; [done|].
  by rewrite Hexact, Hfind.
Qed.

(** C6. ["gpt-4"] resolves by the exact match and ["GPT-4-0613"] by the
    scan of the keys (the first key, in declaration order, that contains
    the lower-cased identifier or is contained in it), both to the key
    ["gpt-4"]; their rates are equal, 45, and differ from the rate of
    ["gpt-4-32k"], 90. *)
Theorem gpt4_same_bucket :
  truthy (JS.get MODEL_PRICING "gpt-4") = true /\
  getBaseModel MODEL_PRICING (Some "gpt-4") = "gpt-4" /\
  truthy (JS.get MODEL_PRICING "GPT-4-0613") = false /\
  (exists i, keys MODEL_PRICING !! i = Some "gpt-4" /\
     keyMatches (toLowerCase "GPT-4-0613") "gpt-4" = true /\
     forall j k, (j < i)%nat -> keys MODEL_PRICING !! j = Some k ->
                 keyMatches (toLowerCase "GPT-4-0613") k = false) /\
  getBaseModel MODEL_PRICING (Some "GPT-4-0613") = "gpt-4" /\
  resolvePrice MODEL_PRICING (Some "gpt-4") = VNumber (Num (Q2Qc 45)) /\
  resolvePrice MODEL_PRICING (Some "GPT-4-0613")
    = resolvePrice MODEL_PRICING (Some "gpt-4") /\
  resolvePrice MODEL_PRICING (Some "gpt-4-32k") = VNumber (Num (Q2Qc 90)) /\
  resolvePrice MODEL_PRICING (Some "gpt-4") <> resolvePrice MODEL_PRICING (Some "gpt-4-32k") /\
  resolvePrice MODEL_PRICING (Some "GPT-4-0613")
    <> resolvePrice MODEL_PRICING (Some "gpt-4-32k").
Proof.
  assert (Hscan : find (keyMatches (toLowerCase "GPT-4-0613")) (keys MODEL_PRICING)
                  = Some "gpt-4") by reflexivity.
  assert (H45 : resolvePrice MODEL_PRICING (Some "gpt-4") = VNumber (Num (Q2Qc 45))).
  { js_eval. }
  assert (H45' : resolvePrice MODEL_PRICING (Some "GPT-4-0613")
                 = resolvePrice MODEL_PRICING (Some "gpt-4")) by reflexivity.
  assert (H90 : resolvePrice MODEL_PRICING (Some "gpt-4-32k") = VNumber (Num (Q2Qc 90))).
  { js_eval. }
  assert (Hne : VNumber (Num (Q2Qc 45)) <> VNumber (Num (Q2Qc 90))).
  { intros H. inversion H. }
  split_and!; try reflexivity; try assumption.
  - by apply find_first in Hscan.
  - rewrite H45, H90. exact Hne.
  - rewrite H45', H45, H90. exact Hne.
Qed.

(** The resolver on a non-empty identifier. *)
Lemma getBaseModel_nonempty (pricing : JS.record) (c : ascii) (s : string) :
  getBaseModel pricing (Some (String c s)) =
  if truthy (JS.get pricing (String c s)) then String c s
  else match find (keyMatches (toLowerCase (String c s))) (keys pricing) with
       | Some key => key
       | None => providerPattern (toLowerCase (String c s))
       end.
Proof. reflexivity. Qed.

(** Membership in a list of string literals, by enumeration. *)
Ltac in_literals := apply list_elem_of_In; simpl; tauto.

(** Every key of the shipped table has a positive rate. *)
Lemma key_rate_positive (k : string) :
  k ∈ keys MODEL_PRICING ->
  exists q, own MODEL_PRICING k = Some q /\ (0 < q)%Qc.
Proof.
  intros Hk. apply list_elem_of_In in Hk. simpl in Hk.
  repeat (destruct Hk as [<-|Hk]; [eexists; split; [reflexivity|reflexivity]|]).
  destruct Hk.
Qed.

Lemma providerPattern_key (modelLower : string) :
  providerPattern modelLower ∈ keys MODEL_PRICING.
Proof. unfold providerPattern. repeat case_match; in_literals. Qed.

(** For an identifier that is not the name of an inherited property the
    resolver returns a key of the pricing table. *)
Lemma getBaseModel_key (model : option string) :
  (forall s, model = Some s -> inherited s = false) ->
  getBaseModel MODEL_PRICING model ∈ keys MODEL_PRICING.
Proof.
  intros Hown. destruct model as [[|c s]|]; [in_literals| |in_literals].
  specialize (Hown _ eq_refl). rewrite getBaseModel_nonempty.
  destruct (truthy (JS.get MODEL_PRICING (String c s))) eqn:Hexact.
  - unfold JS.get in Hexact. rewrite Hown in Hexact.
    destruct (own MODEL_PRICING (String c s)) eqn:Ho; [|discriminate].
    exact (own_Some_key MODEL_PRICING _ _ Ho).
  - destruct (find _ _) as [key|] eqn:Hfind.
    + apply find_some_elem in Hfind as [Hin _]. exact Hin.
    + exact (providerPattern_key _).
Qed.

(** The price read for a resolved model is always truthy, so the
    [|| MODEL_PRICING.default] branch of the aggregation is never taken. *)
Lemma resolved_price_truthy (model : option string) :
  truthy (JS.get MODEL_PRICING (getBaseModel MODEL_PRICING model)) = true.
Proof.
  assert (Hkey : forall k, k ∈ keys MODEL_PRICING ->
                           truthy (JS.get MODEL_PRICING k) = true).
  { intros k (q & Hq & Hpos)%key_rate_positive. unfold JS.get. rewrite Hq. simpl.
    apply negb_true_iff, bool_decide_eq_false. intros ->. by apply Qclt_not_eq in Hpos. }
  destruct model as [[|c s]|];
    [apply Hkey; in_literals| |apply Hkey; in_literals].
  rewrite getBaseModel_nonempty.
  destruct (truthy (JS.get MODEL_PRICING (String c s))) eqn:Hexact; [done|].
  destruct (find _ _) as [key|] eqn:Hfind.
  - apply Hkey. apply find_some_elem in Hfind as [Hin _]. exact Hin.
  - apply Hkey. exact (providerPattern_key _).
Qed.

(** C10. The resolver does not always return a key of the pricing table:
    the exact-match test reads [MODEL_PRICING[model]] through the
    prototype chain, so the identifier ["constructor"] is returned as it
    is, although the table has no such key; the price read for it is the
    inherited function and the cost of the message is NaN. *)
Theorem getBaseModel_inherited_name :
  getBaseModel MODEL_PRICING (Some "constructor") = "constructor" /\
("constructor" ∉ keys MODEL_PRICING) /\
  own MODEL_PRICING "constructor" = None /\
  resolvePrice MODEL_PRICING (Some "constructor") = VObject /\
  messageCost 1000 false (resolvePrice MODEL_PRICING (Some "constructor")) = NaN.
Proof.
  split_and!; try reflexivity.
  intros Hin. apply list_elem_of_In in Hin. simpl in Hin.
  repeat (destruct Hin as [Hin|Hin]; [discriminate Hin|]). destruct Hin.
Qed.

(* ------------------------------------------------------------------ *)
(** ** Token extraction *)

(** The estimate is the length divided by 4, rounded up. *)
Lemma estimateTokens_ceil (t : string) :
  estimateTokens t = (Z.of_nat (String.length t) + 3) / 4.
Proof.
  destruct t as [|c s]; [reflexivity|].
  unfold estimateTokens. generalize (Z.of_nat (String.length (String c s))).
  intros n. unfold Qceiling, Qfloor. simpl.
  rewrite Z.mul_1_r. change (Z.pos (1 * 4)) with 4.
  Z.div_mod_to_equations. lia.
Qed.

(** C1, as stated, fails: a [tokenCount] of 0 is a number, yet the count
    of the message is then taken from the other fields, here estimated
    from the text. *)
Lemma extractTokens_zero_count_falls_through :
  ~ (forall (message : TMessage) (n : Z),
       tokenCount message = Some n -> extractTokens message = (n, false)).
Proof.
  intros H.
  specialize (H (sampleMessage "m1" false None (Some 0) (Some "hello")) 0 eq_refl).
  vm_compute in H. discriminate H.
Qed.

(** C1, amended. The precedence is first-truthy-wins: a non-zero
    [tokenCount] is the count, not estimated, whatever the other fields
    hold; a zero or absent [tokenCount] passes to [usage], then [tokens],
    whose missing or zero parts count 0; the count is estimated, as the
    text length divided by 4 and rounded up, exactly when [tokenCount] is
    zero or absent, [usage] and [tokens] are absent and the text is not
    empty; with none of them the count is 0, not estimated. *)
Theorem extractTokens_precedence (message : TMessage) :
  (forall n, tokenCount message = Some n -> n <> 0 ->
             extractTokens message = (n, false)) /\
  (forall u, truthy_int (tokenCount message) = false -> usage message = Some u ->
             extractTokens message
             = (or_int (prompt_tokens u) 0 + or_int (completion_tokens u) 0, false)) /\
  (forall t, truthy_int (tokenCount message) = false -> usage message = None ->
             tokens message = Some t ->
             extractTokens message
             = (or_int (or_opt_int (prompt t) (input t)) 0
                + or_int (or_opt_int (completion t) (output t)) 0, false)) /\
  (snd (extractTokens message) = true <->
     truthy_int (tokenCount message) = false /\ usage message = None /\
     tokens message = None /\ truthy_string (text message) = true) /\
  (forall t, snd (extractTokens message) = true -> text message = Some t ->
             fst (extractTokens message) = (Z.of_nat (String.length t) + 3) / 4) /\
  (truthy_int (tokenCount message) = false -> usage message = None ->
   tokens message = None -> truthy_string (text message) = false ->
   extractTokens message = (0, false)).
Proof.
  unfold extractTokens.
  generalize (tokenCount message) (usage message) (tokens message) (text message).
  intros count us tk txt. simpl.
  split_and!.
  - intros n -> Hn. by apply Z.eqb_neq in Hn as ->.
  - intros u Hc ->. destruct count as [n|]; [|done].
    simpl in Hc. apply negb_false_iff in Hc. by rewrite Hc.
  - intros t Hc -> ->. destruct count as [n|]; [|done].
    simpl in Hc. apply negb_false_iff in Hc. by rewrite Hc.
  - destruct count as [n|]; simpl.
    + destruct (n =? 0) eqn:Hn; simpl.
      * destruct us, tk, txt as [[|c s]|]; simpl; intuition congruence.
      * intuition congruence.
    + destruct us, tk, txt as [[|c s]|]; simpl; intuition congruence.
  - intros t Hest ->.
    assert (Hother : us = None /\ tk = None /\ exists c s, t = String c s).
    { destruct count as [n|]; [destruct (n =? 0)|];
        destruct us, tk, t as [|c s]; simpl in Hest; try discriminate; eauto. }
    destruct Hother as (-> & -> & c & s & ->).
    rewrite <- estimateTokens_ceil.
    destruct count as [n|]; [destruct (n =? 0)|]; simpl in *; congruence.
  - intros Hc -> -> Ht. destruct count as [n|].
    + simpl in Hc. apply negb_false_iff in Hc. rewrite Hc.
      by destruct txt as [[|c s]|].
    + by destruct txt as [[|c s]|].
Qed.

(** The amended precedence at a message with a count, a usage record and
    a text at once. *)
Lemma extractTokens_precedence_witness :
  extractTokens
    {| conversationId := "c1"; messageId := "m1"; isCreatedByUser := false;
       modelProp := Absent; tokenCountProp := Present 7;
       usageProp := Present {| prompt_tokens := Some 1; completion_tokens := Some 2 |};
       tokensProp := Absent; textProp := Present "hello" |} = (7, false).
Proof.
  apply (extractTokens_precedence _); [reflexivity | lia].
Defined.

(* ------------------------------------------------------------------ *)
(** ** The aggregation loop *)

(** The effective model of a message is never the empty string. *)
Lemma messageModel_truthy (all : list TMessage) (message : TMessage) (k : string) :
  messageModel all message = Some k -> truthy_string (Some k) = true.
Proof.
  unfold messageModel. destruct (truthy_string (model message)) eqn:Hown.
  - by intros <-.
  - destruct (find _ all) as [m|] eqn:Hfind; [|discriminate].
    apply find_some_elem in Hfind as [_ Hm]. by intros <-.
Qed.

Lemma modelOrDefault_truthy (k : string) :
  truthy_string (Some k) = true -> modelOrDefault (Some k) = k.
Proof. by destruct k. Qed.

(** C2, as stated, fails: a user message without a model of its own, in a
    conversation where another message names ["gpt-4"], is costed under
    that fallback model and its cost goes into the ["gpt-4"] bucket. *)
Lemma fallback_model_updates_bucket :
  ~ (forall (all : list TMessage) (acc : Totals) (message : TMessage),
       model message = None ->
       modelCosts (processMessage all acc message) = modelCosts acc).
Proof.
  intros H.
  specialize (H [sampleMessage "m1" false (Some "gpt-4") (Some 1000) None;
                 sampleMessage "m2" true None (Some 1000) None]
                noTotals
                (sampleMessage "m2" true None (Some 1000) None) eq_refl).
  vm_compute in H. discriminate H.
Qed.

(** C2, amended. A message with a non-zero token count adds its cost to
    the per-model map exactly when it has an effective model, its own or
    else the one of the first message of the sequence that has a model,
    and the bucket is that of the effective model; a message with no
    effective model, costed only because it is user-authored, changes no
    bucket.  A message with a zero count changes nothing. *)
Theorem modelCosts_update (all : list TMessage) (acc : Totals) (message : TMessage) :
  let tokenCount := fst (extractTokens message) in
  let isEstimated := snd (extractTokens message) in
  let mm := messageModel all message in
  let cost :=
    messageCost tokenCount isEstimated
      (resolvePrice MODEL_PRICING (Some (modelOrDefault mm))) in
  (truthy_string (model message) = true -> mm = model message) /\
  (truthy_string (model message) = false ->
   mm = match find (fun m => truthy_string (model m)) all with
        | Some m => model m
        | None => None
        end) /\
  (tokenCount = 0 -> processMessage all acc message = acc) /\
  (forall k, tokenCount <> 0 -> mm = Some k ->
     modelCosts (processMessage all acc message)
     = map_set (modelCosts acc) k (add (map_get_or_zero (modelCosts acc) k) cost) /\
     sumCost (processMessage all acc message) = add (sumCost acc) cost) /\
  (tokenCount <> 0 -> mm = None ->
     modelCosts (processMessage all acc message) = modelCosts acc /\
     sumCost (processMessage all acc message)
     = if isCreatedByUser message then add (sumCost acc) cost else sumCost acc).
Proof.
  intros tokenCount isEstimated mm cost. subst tokenCount isEstimated cost.
  unfold processMessage, resolvePrice.
  destruct (extractTokens message) as [tc est]; simpl fst; simpl snd.
  split_and!.
  - intros Hown. subst mm. unfold messageModel. by rewrite Hown.
  - intros Hown. subst mm. unfold messageModel. by rewrite Hown.
  - intros ->. reflexivity.
  - intros k Htc Hmm. apply Z.eqb_neq in Htc. rewrite Htc.
    pose proof (messageModel_truthy _ _ _ Hmm) as Hk.
    fold mm. rewrite Hmm, Hk. simpl orb. cbv iota.
    rewrite (modelOrDefault_truthy k Hk). simpl. done.
  - intros Htc Hmm. apply Z.eqb_neq in Htc. rewrite Htc.
    fold mm. rewrite Hmm. simpl truthy_string. simpl orb.
    destruct (isCreatedByUser message); simpl; done.
Qed.

(** The amended update at a user message that falls back on the model of
    an earlier assistant message. *)
Lemma modelCosts_update_witness :
  modelCosts
    (processMessage
       [sampleMessage "m1" false (Some "gpt-4") (Some 1000) None;
        sampleMessage "m2" true None (Some 1000) None]
       noTotals (sampleMessage "m2" true None (Some 1000) None))
  = map_set [] "gpt-4"
      (add (map_get_or_zero [] "gpt-4")
         (messageCost 1000 false (resolvePrice MODEL_PRICING (Some "gpt-4")))).
Proof.
  apply (modelCosts_update
           [sampleMessage "m1" false (Some "gpt-4") (Some 1000) None;
            sampleMessage "m2" true None (Some 1000) None]
           noTotals (sampleMessage "m2" true None (Some 1000) None)).
  - simpl. lia.
  - reflexivity.
Defined.

(** C3. A single user-authored message that has only a text of 40
    characters, and no model, counts 10 tokens; its cost is 0.85 * 10
    tokens, per million, at the rate of ["gpt-3.5-turbo"], which is 1: the
    discount enters the cost and not the token total. *)
Theorem single_user_text_message (message : TMessage) (t : string) (now : Z) :
  isCreatedByUser message = true ->
  model message = None ->
  tokenCount message = None ->
  usage message = None ->
  tokens message = None ->
  text message = Some t ->
  String.length t = 40%nat ->
  resolvePrice MODEL_PRICING (Some "gpt-3.5-turbo") = VNumber (Num 1%Qc) /\
  exists d, costData [message] now = Some d /\
            totalTokens d = 10 /\
            totalCostRaw d = Num (Q2Qc 0.85 * Q2Qc 10 / Q2Qc 1000000 * 1)%Qc /\
            primaryModel d = "Unknown".
Proof.
  intros HbyUser Hmodel Hcount Husage Htokens Htext Hlen.
  split; [js_eval|].
  assert (Hext : extractTokens message = (10, true)).
  { unfold extractTokens. rewrite Hcount, Husage, Htokens, Htext.
    destruct t as [|c s]; [discriminate Hlen|].
    by rewrite estimateTokens_ceil, Hlen. }
  assert (Hmm : messageModel [message] message = None).
  { unfold messageModel. simpl. by rewrite Hmodel. }
  eexists. split; [reflexivity|].
  unfold aggregate. simpl fold_left. unfold processMessage.
  rewrite Hext, Hmm, HbyUser. simpl.
  split_and!; [reflexivity | js_eval | reflexivity].
Qed.

(** The claim at a message of forty letters. *)
Lemma single_user_text_message_witness :
  exists d,
    costData [sampleMessage "m1" true None None
                (Some "abcdefghijklmnopqrstuvwxyzabcdefghijklmn")] 0 = Some d /\
    totalTokens d = 10 /\
    totalCostRaw d = Num (Q2Qc 0.85 * Q2Qc 10 / Q2Qc 1000000 * 1)%Qc /\
    primaryModel d = "Unknown".
Proof.
  apply (single_user_text_message
           (sampleMessage "m1" true None None
              (Some "abcdefghijklmnopqrstuvwxyzabcdefghijklmn"))
           "abcdefghijklmnopqrstuvwxyzabcdefghijklmn" 0);
    reflexivity.
Defined.

(* ------------------------------------------------------------------ *)
(** ** Formatting *)

Lemma ltb_true (a b : Qc) : (a < b)%Qc -> ltb (Num a) (Num b) = true.
Proof. intros H. by apply bool_decide_eq_true_2. Qed.

Lemma ltb_false (a b : Qc) : (b <= a)%Qc -> ltb (Num a) (Num b) = false.
Proof. intros H. apply bool_decide_eq_false_2. by apply Qcle_not_lt. Qed.

Lemma is_zero_false (a : Qc) : a <> 0%Qc -> is_zero (Num a) = false.
Proof. intros H. by apply bool_decide_eq_false_2. Qed.

(** A cost at or above a positive bound is not zero. *)
Lemma is_zero_above (a b : Qc) : (0 < b)%Qc -> (b <= a)%Qc -> is_zero (Num a) = false.
Proof.
  intros Hb Hab. apply is_zero_false. intros ->.
  by apply (Qcle_not_lt _ _ Hab).
Qed.

(** C4. A message with [tokenCount = 1000] and model ["gpt-4o"] costs
    (1000 / 1,000,000) * 10 = 0.01, and [formatCost] has the tiers: 0 is
    ["$0.00"]; another value below 0.001 is ["<$0.001"]; from 0.001 and
    below 0.01 four decimals; from 0.01 and below 1 three decimals;
    from 1 on two decimals.  So 0.01 is printed ["$0.010"]. *)
Theorem gpt4o_cost_and_format_tiers :
  (forall (message : TMessage) (now : Z),
     tokenCount message = Some 1000 ->
     model message = Some "gpt-4o" ->
     text message = None ->
     resolvePrice MODEL_PRICING (Some "gpt-4o") = VNumber (Num (Q2Qc 10)) /\
     exists d, costData [message] now = Some d /\
               totalCostRaw d = Num (Q2Qc 1000 / Q2Qc 1000000 * Q2Qc 10)%Qc /\
               totalCostRaw d = Num (Q2Qc 0.01) /\
               totalCost d = "$0.010") /\
  messageCost 1000 false (resolvePrice MODEL_PRICING (Some "gpt-4o")) = Num (Q2Qc 0.01) /\
  formatCost (Num 0%Qc) = "$0.00" /\
  (forall c : Qc, c <> 0%Qc -> (c < Q2Qc 0.001)%Qc ->
     formatCost (Num c) = "<$0.001") /\
  (forall c : Qc, (Q2Qc 0.001 <= c)%Qc -> (c < Q2Qc 0.01)%Qc ->
     formatCost (Num c) = "$" ++ toFixed (Num c) 4) /\
  (forall c : Qc, (Q2Qc 0.01 <= c)%Qc -> (c < 1)%Qc ->
     formatCost (Num c) = "$" ++ toFixed (Num c) 3) /\
  (forall c : Qc, (1 <= c)%Qc ->
     formatCost (Num c) = "$" ++ toFixed (Num c) 2) /\
  formatCost (Num (Q2Qc 0.01)) = "$0.010" /\
  formatCost (Num (Q2Qc 0.0042)) = "$0.0042" /\
  formatCost (Num (Q2Qc 0.5)) = "$0.500" /\
  formatCost (Num (Q2Qc 12.345)) = "$12.35".
Proof.
  assert (H1 : (0 < Q2Qc 0.001)%Qc) by reflexivity.
  assert (H2 : (Q2Qc 0.001 <= Q2Qc 0.01)%Qc) by (by apply Qclt_le_weak).
  assert (H3 : (Q2Qc 0.01 <= 1)%Qc) by (by apply Qclt_le_weak).
  split_and!; try reflexivity; [|js_eval|..].
  - intros message now Hcount Hmodel Htext. split; [js_eval|].
    assert (Hext : extractTokens message = (1000, false)).
    { unfold extractTokens. by rewrite Hcount. }
    assert (Hmm : messageModel [message] message = Some "gpt-4o").
    { unfold messageModel. by rewrite Hmodel. }
    eexists. split; [reflexivity|].
    unfold aggregate. simpl fold_left. unfold processMessage.
    rewrite Hext, Hmm. simpl.
    split_and!; [js_eval | js_eval | reflexivity].
  - intros c Hc Hlt. unfold formatCost.
    by rewrite (is_zero_false c Hc), (ltb_true _ _ Hlt).
  - intros c Hle Hlt. unfold formatCost.
    by rewrite (is_zero_above c _ H1 Hle), (ltb_false _ _ Hle), (ltb_true _ _ Hlt).
  - intros c Hle Hlt. unfold formatCost.
    pose proof (Qcle_trans _ _ _ H2 Hle) as Hle'.
    by rewrite (is_zero_above c _ H1 Hle'), (ltb_false _ _ Hle'),
      (ltb_false _ _ Hle), (ltb_true _ _ Hlt).
  - intros c Hle. unfold formatCost.
    pose proof (Qcle_trans _ _ _ H3 Hle) as Hle'.
    pose proof (Qcle_trans _ _ _ H2 Hle') as Hle''.
    by rewrite (is_zero_above c _ H1 Hle''), (ltb_false _ _ Hle''),
      (ltb_false _ _ Hle'), (ltb_false _ _ Hle).
Qed.

(** The claim at a finished assistant message and at sample costs. *)
Lemma gpt4o_cost_and_format_tiers_witness :
  (exists d, costData [sampleMessage "m1" false (Some "gpt-4o") (Some 1000) None] 0
             = Some d /\ totalCost d = "$0.010") /\
  formatCost (Num (Q2Qc 0.0005)) = "<$0.001" /\
  formatCost (Num (Q2Qc 0.005)) = "$" ++ toFixed (Num (Q2Qc 0.005)) 4 /\
  formatCost (Num (Q2Qc 0.25)) = "$" ++ toFixed (Num (Q2Qc 0.25)) 3 /\
  formatCost (Num (Q2Qc 3)) = "$" ++ toFixed (Num (Q2Qc 3)) 2.
Proof.
  destruct gpt4o_cost_and_format_tiers as (Hmsg & _ & _ & Hlow & H4 & H3 & H2 & _).
  split_and!.
  - destruct (Hmsg (sampleMessage "m1" false (Some "gpt-4o") (Some 1000) None) 0
                eq_refl eq_refl eq_refl) as (_ & d & Hd & _ & _ & Hfmt).
    exists d. by split.
  - apply Hlow; [by intros H; inversion H | reflexivity].
  - apply H4; [by intros H; inversion H | reflexivity].
  - apply H3; [by intros H; inversion H | reflexivity].
  - apply H2. by intros H; inversion H.
Defined.

(* ------------------------------------------------------------------ *)
(** ** The streaming merge *)

(** Reading a spread property: an own property of the second object is
    what is read, [null] and [undefined] included; otherwise the property
    of the first object is. *)
Lemma read_spread {A} (x y : property A) :
  read (spread x y) = match y with Absent => read x | Nullish | Present _ => read y end.
Proof. by destruct y. Qed.

(** In an overlay every own property of the second message wins, also
    when it holds [null] or [undefined]; a property the second message
    does not have keeps the value of the first. *)
Lemma overlay_fields (old lm : TMessage) :
  conversationId (overlay old lm) = conversationId lm /\
  messageId (overlay old lm) = messageId lm /\
  isCreatedByUser (overlay old lm) = isCreatedByUser lm /\
  model (overlay old lm)
  = match modelProp lm with Absent => model old | Nullish | Present _ => model lm end /\
  tokenCount (overlay old lm)
  = match tokenCountProp lm with
    | Absent => tokenCount old
    | Nullish | Present _ => tokenCount lm
    end /\
  usage (overlay old lm)
  = match usageProp lm with Absent => usage old | Nullish | Present _ => usage lm end /\
  tokens (overlay old lm)
  = match tokensProp lm with Absent => tokens old | Nullish | Present _ => tokens lm end /\
  text (overlay old lm)
  = match textProp lm with Absent => text old | Nullish | Present _ => text lm end.
Proof.
  unfold model, tokenCount, usage, tokens, text, overlay. cbn.
  rewrite !read_spread. by split_and!.
Qed.

(** C7. When the in-flight message belongs to the observed conversation:
    if a message of the sequence has its [messageId], the first such
    entry is replaced, in place, by its overlay with the in-flight
    message and the length is unchanged.  In the overlay every property
    the in-flight message has wins, also one that holds [null] or
    [undefined]; a property it does not have keeps the cached value.  If
    no message has the [messageId], the in-flight message is appended
    when its text is not empty and the sequence is left as it is
    otherwise. *)
Theorem allMessages_merge (messages : list TMessage) (lm : TMessage) (cid : string) :
  conversationId lm = cid ->
  let sameId := fun m => String.eqb (messageId m) (messageId lm) in
  (forall i, findIndex sameId messages = Some i ->
     exists old,
       messages !! i = Some old /\ messageId old = messageId lm /\
       (forall j m, (j < i)%nat -> messages !! j = Some m -> messageId m <> messageId lm) /\
       allMessages messages (Some lm) (Some cid) = <[i := overlay old lm]> messages /\
       allMessages messages (Some lm) (Some cid) !! i = Some (overlay old lm) /\
       (forall f, text lm = Some f -> text (overlay old lm) = Some f) /\
       conversationId (overlay old lm) = conversationId lm /\
       messageId (overlay old lm) = messageId lm /\
       isCreatedByUser (overlay old lm) = isCreatedByUser lm /\
       model (overlay old lm)
       = match modelProp lm with
         | Absent => model old
         | Nullish | Present _ => model lm
         end /\
       tokenCount (overlay old lm)
       = match tokenCountProp lm with
         | Absent => tokenCount old
         | Nullish | Present _ => tokenCount lm
         end /\
       usage (overlay old lm)
       = match usageProp lm with
         | Absent => usage old
         | Nullish | Present _ => usage lm
         end /\
       tokens (overlay old lm)
       = match tokensProp lm with
         | Absent => tokens old
         | Nullish | Present _ => tokens lm
         end /\
       text (overlay old lm)
       = match textProp lm with
         | Absent => text old
         | Nullish | Present _ => text lm
         end /\
       List.length (allMessages messages (Some lm) (Some cid)) = List.length messages) /\
  (findIndex sameId messages = None ->
     (forall m, m ∈ messages -> messageId m <> messageId lm) /\
     (truthy_string (text lm) = true ->
        allMessages messages (Some lm) (Some cid) = (messages ++ [lm])%list) /\
     (truthy_string (text lm) = false ->
        allMessages messages (Some lm) (Some cid) = messages)).
Proof.
  intros Hcid sameId. unfold allMessages, slotMatches.
  rewrite Hcid, String.eqb_refl. fold sameId. split.
  - intros i Hi. rewrite Hi.
    destruct (findIndex_Some _ _ _ Hi) as (old & Hold & Hsame & Hbefore).
    pose proof (lookup_lt_Some _ _ _ Hold) as Hlt.
    assert (Halter : alter (fun old => overlay old lm) i messages
                     = <[i := overlay old lm]> messages).
    { apply list_eq. intros j. destruct (decide (i = j)) as [<-|Hne].
      - by rewrite list_lookup_alter_eq, Hold, list_lookup_insert_eq.
      - by rewrite list_lookup_alter_ne, list_lookup_insert_ne. }
    exists old. split_and!; auto.
    + by apply String.eqb_eq.
    + intros j m Hj Hm Heq. specialize (Hbefore j m Hj Hm).
      unfold sameId in Hbefore. by rewrite Heq, String.eqb_refl in Hbefore.
    + rewrite Halter. by apply list_lookup_insert_eq.
    + intros f Hf. destruct (overlay_fields old lm) as (_ & _ & _ & _ & _ & _ & _ & Ht).
      rewrite Ht. unfold text in *. by destruct (textProp lm).
    + apply overlay_fields.
    + apply overlay_fields.
    + apply overlay_fields.
    + apply overlay_fields.
    + apply overlay_fields.
    + by rewrite Halter, length_insert.
  - intros Hnone. rewrite Hnone. split_and!.
    + intros m Hm Heq. pose proof (findIndex_None _ _ Hnone m Hm) as Hp.
      unfold sameId in Hp. by rewrite Heq, String.eqb_refl in Hp.
    + by intros ->.
    + by intros ->.
Qed.

(** The merge at a streaming text that replaces a cached message. *)
Lemma allMessages_merge_witness :
  exists old,
    [sampleMessage "m1" true None (Some 12) (Some "hi");
     sampleMessage "m2" false (Some "gpt-4") None (Some "par")] !! 1%nat = Some old /\
    allMessages
      [sampleMessage "m1" true None (Some 12) (Some "hi");
       sampleMessage "m2" false (Some "gpt-4") None (Some "par")]
      (Some (sampleMessage "m2" false None None (Some "partial"))) (Some "c1")
    = <[1%nat := overlay old (sampleMessage "m2" false None None (Some "partial"))]>
        [sampleMessage "m1" true None (Some 12) (Some "hi");
         sampleMessage "m2" false (Some "gpt-4") None (Some "par")].
Proof.
  destruct (allMessages_merge
              [sampleMessage "m1" true None (Some 12) (Some "hi");
               sampleMessage "m2" false (Some "gpt-4") None (Some "par")]
              (sampleMessage "m2" false None None (Some "partial")) "c1" eq_refl)
    as [Hfound _].
  destruct (Hfound 1%nat eq_refl) as (old & Hold & _ & _ & Heq & _).
  exists old. by split.
Defined.

(* ------------------------------------------------------------------ *)
(** ** The primary model *)

(** The scan from a state [(p, mx)]: either no cost exceeds [mx] and the
    state is kept, or it ends on the first entry of maximal cost. *)
Lemma primary_scan (costs : CostMap) (p : string) (mx : Qc) :
  (fold_left primaryStep costs (p, Num mx) = (p, Num mx) /\
   forall j k c, costs !! j = Some (k, Num c) -> (c <= mx)%Qc) \/
  (exists i k c,
     costs !! i = Some (k, Num c) /\
     fold_left primaryStep costs (p, Num mx) = (k, Num c) /\
     (mx < c)%Qc /\
     (forall j k' c', costs !! j = Some (k', Num c') -> (c' <= c)%Qc) /\
     (forall j k' c', (j < i)%nat -> costs !! j = Some (k', Num c') -> (c' < c)%Qc)).
Proof.
  revert p mx. induction costs as [|[k0 v0] costs IH]; intros p mx.
  - left. split; [reflexivity|]. intros j k c Hj. by destruct j.
  - cbn [fold_left primaryStep]. destruct v0 as [c0|].
    + unfold gtb, ltb. destruct (bool_decide (mx < c0)%Qc) eqn:Hgt.
      * apply bool_decide_eq_true_1 in Hgt. right.
        destruct (IH k0 c0) as [[Hkeep Hle]|(i & k & c & Hi & Hres & Hlt & Hle & Hbefore)].
        { exists 0%nat, k0, c0. split_and!; auto.
          - intros [|j] k' c' Hj; simpl in Hj.
            + injection Hj as _ <-. apply Qcle_refl.
            + by eapply Hle.
          - intros j k' c' Hj. lia. }
        { exists (S i), k, c. split_and!; auto.
          - by etrans.
          - intros [|j] k' c' Hj; simpl in Hj.
            + injection Hj as _ <-. by apply Qclt_le_weak.
            + by eapply Hle.
          - intros [|j] k' c' Hlt' Hj; simpl in Hj.
            + by injection Hj as _ <-.
            + eapply (Hbefore j); [lia|done]. }
      * apply bool_decide_eq_false_1, Qcnot_lt_le in Hgt.
        destruct (IH p mx) as [[Hkeep Hle]|(i & k & c & Hi & Hres & Hlt & Hle & Hbefore)].
        { left. split; [done|].
          intros [|j] k' c' Hj; simpl in Hj.
          - by injection Hj as _ <-.
          - by eapply Hle. }
        { right. exists (S i), k, c. split_and!; auto.
          - intros [|j] k' c' Hj; simpl in Hj.
            + injection Hj as _ <-. apply Qclt_le_weak. by eapply Qcle_lt_trans.
            + by eapply Hle.
          - intros [|j] k' c' Hlt' Hj; simpl in Hj.
            + injection Hj as _ <-. by eapply Qcle_lt_trans.
            + eapply (Hbefore j); [lia|done]. }
    + simpl gtb.
      destruct (IH p mx) as [[Hkeep Hle]|(i & k & c & Hi & Hres & Hlt & Hle & Hbefore)].
      * left. split; [done|].
        intros [|j] k' c' Hj; simpl in Hj; [discriminate|]. by eapply Hle.
      * right. exists (S i), k, c. split_and!; auto.
        { intros [|j] k' c' Hj; simpl in Hj; [discriminate|]. by eapply Hle. }
        { intros [|j] k' c' Hlt' Hj; simpl in Hj; [discriminate|].
          eapply (Hbefore j); [lia|done]. }
Qed.

Lemma or_int_nonneg (n : option Z) : nonneg n -> 0 <= or_int n 0.
Proof.
  intros Hn. destruct n as [z|]; simpl; [|lia].
  destruct (z =? 0); [lia|]. by apply Hn.
Qed.

Lemma or_opt_int_nonneg (a b : option Z) : nonneg a -> nonneg b -> nonneg (or_opt_int a b).
Proof. intros Ha Hb. unfold or_opt_int. by destruct (truthy_int a). Qed.

Lemma extractTokens_nonneg (m : TMessage) :
  well_formed m -> 0 <= fst (extractTokens m).
Proof.
  intros (Hcount & Husage & Htokens & _).
  assert (Hrest : 0 <= fst
    match usage m with
    | Some usage =>
        (or_int (prompt_tokens usage) 0 + or_int (completion_tokens usage) 0, false)
    | None =>
        match tokens m with
        | Some tokens =>
            (or_int (or_opt_int (prompt tokens) (input tokens)) 0
             + or_int (or_opt_int (completion tokens) (output tokens)) 0, false)
        | None =>
            match text m with
            | Some (String c s) => (estimateTokens (String c s), true)
            | _ => (0, false)
            end
        end
    end).
  { destruct (usage m) as [u|].
    - destruct (Husage u eq_refl) as [Hp Hc]. simpl.
      pose proof (or_int_nonneg _ Hp). pose proof (or_int_nonneg _ Hc). lia.
    - destruct (tokens m) as [t|].
      + destruct (Htokens t eq_refl) as (Hp & Hi & Hc & Ho). simpl.
        pose proof (or_int_nonneg _ (or_opt_int_nonneg _ _ Hp Hi)).
        pose proof (or_int_nonneg _ (or_opt_int_nonneg _ _ Hc Ho)). lia.
      + destruct (text m) as [[|c s]|]; cbn [fst]; try lia.
        rewrite estimateTokens_ceil. apply Z.div_pos; lia. }
  unfold extractTokens. destruct (tokenCount m) as [n|]; [|exact Hrest].
  destruct (n =? 0); [exact Hrest|]. simpl. by apply Hcount.
Qed.

Lemma messageModel_own_name (all : list TMessage) (message : TMessage) (k : string) :
  (forall m, m ∈ all -> well_formed m) -> well_formed message ->
  messageModel all message = Some k -> inherited k = false.
Proof.
  intros Hall (_ & _ & _ & Hname). unfold messageModel.
  destruct (truthy_string (model message)); [by apply Hname|].
  destruct (find _ all) as [m|] eqn:Hfind; [|discriminate].
  apply find_some_elem in Hfind as [Hin _].
  destruct (Hall m Hin) as (_ & _ & _ & Hname'). by apply Hname'.
Qed.

(** The price of a model with a name of its own is a positive rate. *)
Lemma price_positive (k : string) :
  inherited k = false ->
  exists q, priceOf MODEL_PRICING (getBaseModel MODEL_PRICING (Some k))
            = VNumber (Num q) /\ (0 < q)%Qc.
Proof.
  intros Hk.
  assert (Hkey : getBaseModel MODEL_PRICING (Some k) ∈ keys MODEL_PRICING).
  { apply getBaseModel_key. by intros s [= <-]. }
  destruct (key_rate_positive _ Hkey) as (q & Hq & Hpos).
  exists q. split; [|done]. unfold priceOf, JS.or.
  rewrite resolved_price_truthy. unfold JS.get. by rewrite Hq.
Qed.

Lemma messageCost_positive (tc : Z) (est : bool) (q : Qc) :
  0 < tc -> (0 < q)%Qc ->
  exists c, messageCost tc est (VNumber (Num q)) = Num c /\ (0 < c)%Qc.
Proof.
  intros Htc Hq. apply Z2Qc_inj_lt in Htc. rewrite Z2Qc_inj_0 in Htc.
  assert (Hinv : (0 < / Q2Qc 1000000)%Qc) by reflexivity.
  assert (Hdisc : (0 < Q2Qc 0.85)%Qc) by reflexivity.
  unfold messageCost. destruct est; simpl; eexists; (split; [reflexivity|]);
    unfold Qcdiv; auto using Qcmult_pos_pos.
Qed.

Lemma map_get_elem (m : CostMap) (k : string) (v : number) :
  map_get m k = Some v -> (k, v) ∈ m.
Proof.
  induction m as [|[k' v'] m IH]; simpl; [discriminate|].
  destruct (String.eqb k' k) eqn:Hk.
  - apply String.eqb_eq in Hk as ->. intros [= ->]. apply elem_of_cons. by left.
  - intros H. apply elem_of_cons. right. by apply IH.
Qed.

Lemma map_set_elem (m : CostMap) (k : string) (v : number) (e : string * number) :
  e ∈ map_set m k v -> e ∈ m \/ snd e = v.
Proof.
  induction m as [|[k' v'] m IH]; simpl.
  - intros ->%list_elem_of_singleton. by right.
  - destruct (String.eqb k' k).
    + intros [->|H]%elem_of_cons; [by right|]. left. apply elem_of_cons. by right.
    + intros [->|H]%elem_of_cons; [left; apply elem_of_cons; by left|].
      destruct (IH H) as [H'|H']; [|by right]. left. apply elem_of_cons. by right.
Qed.

Lemma map_get_or_zero_nonneg (m : CostMap) (k : string) :
  positive_costs m -> exists q, map_get_or_zero m k = Num q /\ (0 <= q)%Qc.
Proof.
  intros Hm. unfold map_get_or_zero. destruct (map_get m k) as [v|] eqn:Hget.
  - destruct (Hm k v (map_get_elem _ _ _ Hget)) as (q & -> & Hq).
    destruct (truthy_number (Num q)).
    + exists q. split; [reflexivity | by apply Qclt_le_weak].
    + exists 0%Qc. split; [reflexivity | apply Qcle_refl].
  - exists 0%Qc. split; [reflexivity | apply Qcle_refl].
Qed.

(** The loop keeps every accrued cost positive. *)
Lemma processMessage_positive (all : list TMessage) (acc : Totals) (message : TMessage) :
  (forall m, m ∈ all -> well_formed m) -> well_formed message ->
  positive_costs (modelCosts acc) ->
  positive_costs (modelCosts (processMessage all acc message)).
Proof.
  intros Hall Hwf Hacc. pose proof (extractTokens_nonneg _ Hwf) as Hnn.
  unfold processMessage. destruct (extractTokens message) as [tc est].
  simpl in Hnn. destruct (tc =? 0) eqn:Htc; [done|]. apply Z.eqb_neq in Htc.
  destruct (messageModel all message) as [k|] eqn:Hmm.
  - pose proof (messageModel_truthy _ _ _ Hmm) as Hk.
    rewrite Hk. simpl orb. cbv iota. cbn [modelCosts].
    rewrite (modelOrDefault_truthy k Hk).
    destruct (price_positive k (messageModel_own_name _ _ _ Hall Hwf Hmm))
      as (q & -> & Hq).
    destruct (messageCost_positive tc est q ltac:(lia) Hq) as (c & -> & Hc).
    destruct (map_get_or_zero_nonneg (modelCosts acc) k Hacc) as (b & -> & Hb).
    intros k' v' [Hin|Hv]%map_set_elem.
    + by apply (Hacc k').
    + simpl in Hv. subst v'. eexists. split; [reflexivity|].
      by apply Qcplus_nonneg_pos.
  - simpl truthy_string. simpl orb.
    by destruct (isCreatedByUser message).
Qed.

Lemma aggregate_positive (all : list TMessage) :
  (forall m, m ∈ all -> well_formed m) ->
  positive_costs (modelCosts (aggregate all)).
Proof.
  intros Hall. unfold aggregate.
  assert (Hgen : forall l acc,
            (forall m, m ∈ l -> well_formed m) ->
            positive_costs (modelCosts acc) ->
            positive_costs (modelCosts (fold_left (processMessage all) l acc))).
  { induction l as [|m l IH]; intros acc Hl Hacc; [done|].
    simpl. apply IH.
    - intros m' Hm'. apply Hl, elem_of_cons. by right.
    - apply processMessage_positive; auto. apply Hl, elem_of_cons. by left. }
  apply Hgen; [done|]. intros k v Hin. by apply elem_of_nil in Hin.
Qed.




(* ------------------------------------------------------------------ *)
(** ** The result of the aggregation *)

(** C9. On the empty sequence [costData] is [null], which the component
    renders as the placeholder, as it renders a total of exactly zero: a
    value, not a failure.  On every non-empty sequence [costData] is a
    record: the totals of the loop, which is defined on every message,
    with the clock value it was given. *)
Theorem costData_empty_or_record (now : Z) :
  costData [] now = None /\
  (forall (NEW_CONVO c : string),
     c <> "" -> c <> NEW_CONVO ->
     render NEW_CONVO (Some c) (costData [] now) = Placeholder) /\
  (forall (NEW_CONVO c : string) (d : CostData),
     c <> "" -> c <> NEW_CONVO -> totalCostRaw d = zero ->
     render NEW_CONVO (Some c) (Some d) = Placeholder) /\
  (forall all : list TMessage,
     all <> [] ->
     exists d, costData all now = Some d /\
               totalCostRaw d = sumCost (aggregate all) /\
               totalCost d = formatCost (sumCost (aggregate all)) /\
               totalTokens d = sumTokens (aggregate all) /\
               primaryModel d = findPrimaryModel (modelCosts (aggregate all)) /\
               lastUpdated d = now).
Proof.
  split_and!.
  - reflexivity.
  - intros NEW_CONVO [|a s] Hne Hnew; [done|]. unfold render. cbv beta iota.
    apply String.eqb_neq in Hnew. by rewrite Hnew.
  - intros NEW_CONVO [|a s] d Hne Hnew Hzero; [done|]. unfold render. cbv beta iota.
    apply String.eqb_neq in Hnew. by rewrite Hnew, Hzero.
  - intros [|m all] Hne; [done|]. eexists. split; [reflexivity|]. by split_and!.
Qed.

(** The claim at a conversation of one finished message. *)
Lemma costData_empty_or_record_witness :
  exists d,
    costData [sampleMessage "m1" false (Some "gpt-4o") (Some 1000) None] 7 = Some d /\
    totalTokens d = 1000 /\ lastUpdated d = 7.
Proof.
  destruct (costData_empty_or_record 7) as (_ & _ & _ & Htotal).
  destruct (Htotal [sampleMessage "m1" false (Some "gpt-4o") (Some 1000) None])
    as (d & Hd & _ & _ & Htok & _ & Hnow); [discriminate|].
  exists d. split_and!; [exact Hd | exact Htok | exact Hnow].
Defined.

(* ------------------------------------------------------------------ *)
(** ** The shape of [toFixed] *)

Lemma string_length_app (s1 s2 : string) :
  String.length (s1 ++ s2) = (String.length s1 + String.length s2)%nat.
Proof. induction s1 as [|c s1 IH]; simpl; [done|]. by rewrite IH. Qed.

Lemma zeros_length (k : nat) : String.length (zeros k) = k.
Proof. induction k as [|k IH]; simpl; [done|]. by rewrite IH. Qed.

Lemma substring_length (n m : nat) (s : string) :
  (n + m <= String.length s)%nat -> String.length (substring n m s) = m.
Proof.
  revert n m. induction s as [|c s IH]; intros n m Hlen; simpl in Hlen.
  - assert (n = 0%nat /\ m = 0%nat) as [-> ->] by lia. reflexivity.
  - destruct n as [|n]; simpl.
    + destruct m as [|m]; simpl; [done|]. rewrite IH; [done|lia].
    + apply IH. lia.
Qed.

(** For a cost that is not negative, [toFixed] prints an integer part of
    at least one character, a point, and exactly [f] characters. *)
Lemma toFixed_decimals (q : Qc) (f : nat) :
  (0 <= q)%Qc ->
  exists a b, toFixed (Num q) f = a ++ "." ++ b /\
              String.length b = f /\ (1 <= String.length a)%nat.
Proof.
  intros Hq. unfold toFixed.
  rewrite (bool_decide_eq_false_2 _ (Qcle_not_lt _ _ Hq)).
  set (d := digits _). set (m := zeros (S f - String.length d) ++ d).
  assert (Hk : (S f <= String.length m)%nat).
  { unfold m. rewrite string_length_app, zeros_length. lia. }
  exists (substring 0 (String.length m - f) m), (substring (String.length m - f) f m).
  split_and!.
  - reflexivity.
  - apply substring_length. lia.
  - rewrite substring_length; lia.
Qed.

(* ------------------------------------------------------------------ *)
(** ** More on the model resolver *)

Lemma find_none_all {A} (p : A -> bool) (l : list A) :
  find p l = None -> forall x, In x l -> p x = false.
Proof.
  induction l as [|a l IH]; simpl; intros Hfind x Hx; [done|].
  destruct (p a) eqn:Hpa; [discriminate|].
  destruct Hx as [<-|Hx]; auto.
Qed.

(** The keys of the table are written in lower case. *)
Lemma keys_lowercase (k : string) : In k (keys MODEL_PRICING) -> toLowerCase k = k.
Proof.
  simpl. intros Hk.
  repeat (destruct Hk as [<-|Hk]; [reflexivity|]). destruct Hk.
Qed.

(** X1. For an identifier that is not the name of a property inherited
    from [Object.prototype] (null and the empty string included), the
    resolver returns a key of the pricing table and the price read for
    it is a positive number. *)
Theorem resolver_returns_priced_key (model : option string) :
  (forall s, model = Some s -> inherited s = false) ->
  getBaseModel MODEL_PRICING model ∈ keys MODEL_PRICING /\
  exists q, own MODEL_PRICING (getBaseModel MODEL_PRICING model) = Some q /\
            resolvePrice MODEL_PRICING model = VNumber (Num q) /\ (0 < q)%Qc.
Proof.
  intros Hown. pose proof (getBaseModel_key model Hown) as Hkey.
  split; [exact Hkey|].
  destruct (key_rate_positive _ Hkey) as (q & Hq & Hpos).
  exists q. split_and!; [exact Hq| |exact Hpos].
  unfold resolvePrice, priceOf, JS.or.
  rewrite resolved_price_truthy. unfold JS.get. by rewrite Hq.
Qed.

Lemma resolver_returns_priced_key_witness :
  getBaseModel MODEL_PRICING (Some "claude-sonnet-4") ∈ keys MODEL_PRICING /\
  exists q, own MODEL_PRICING (getBaseModel MODEL_PRICING (Some "claude-sonnet-4")) = Some q /\
            resolvePrice MODEL_PRICING (Some "claude-sonnet-4") = VNumber (Num q) /\
            (0 < q)%Qc.
Proof.
  apply (resolver_returns_priced_key (Some "claude-sonnet-4")).
  intros s [= <-]. reflexivity.
Defined.

(** X2. Whatever the identifier, the table read [MODEL_PRICING[baseModel]]
    is truthy, so the price is that read and the alternative
    [MODEL_PRICING.default] of the aggregation is never used. *)
Theorem default_price_never_substituted (model : option string) :
  truthy (JS.get MODEL_PRICING (getBaseModel MODEL_PRICING model)) = true /\
  resolvePrice MODEL_PRICING model
  = JS.get MODEL_PRICING (getBaseModel MODEL_PRICING model).
Proof.
  pose proof (resolved_price_truthy model) as Ht. split; [exact Ht|].
  unfold resolvePrice, priceOf, JS.or. by rewrite Ht.
Qed.

(** X3. Resolving is idempotent: the resolver maps its own result to
    itself, for every identifier. *)
Theorem getBaseModel_idempotent (model : option string) :
  getBaseModel MODEL_PRICING (Some (getBaseModel MODEL_PRICING model))
  = getBaseModel MODEL_PRICING model.
Proof.
  pose proof (resolved_price_truthy model) as Ht.
  destruct (getBaseModel MODEL_PRICING model) as [|c s] eqn:Hr.
  - discriminate Ht.
  - by rewrite getBaseModel_nonempty, Ht.
Qed.

(** X4. When neither the exact match nor the key scan succeeds, only the
    provider rules whose pattern is not itself a table key can fire: the
    result is one of ["gpt-3.5-turbo"], ["claude-3-5-sonnet"],
    ["claude-3-haiku"], ["gemini-1.5-flash"] and ["default"].  The other
    thirteen rules are never the ones that decide. *)
Theorem provider_rules_after_failed_scan (model : string) :
  model <> "" ->
  truthy (JS.get MODEL_PRICING model) = false ->
  find (keyMatches (toLowerCase model)) (keys MODEL_PRICING) = None ->
  getBaseModel MODEL_PRICING (Some model) = providerPattern (toLowerCase model) /\
  getBaseModel MODEL_PRICING (Some model)
    ∈ ["gpt-3.5-turbo"; "claude-3-5-sonnet"; "claude-3-haiku";
       "gemini-1.5-flash"; "default"].
Proof.
  intros Hne Hexact Hscan. destruct model as [|c s]; [done|].
  rewrite getBaseModel_nonempty, Hexact, Hscan. split; [reflexivity|].
  set (ml := toLowerCase (String c s)) in *.
  assert (Hkey : forall k, In k (keys MODEL_PRICING) ->
                           includes ml (toLowerCase k) = false).
  { intros k Hk. pose proof (find_none_all _ _ Hscan k Hk) as Hm.
    unfold keyMatches in Hm. by apply orb_false_iff in Hm as [Hm _]. }
  assert (Hlit : forall k, In k (keys MODEL_PRICING) -> includes ml k = false).
  { intros k Hk. rewrite <- (keys_lowercase k Hk). by apply Hkey. }
  clear Hkey. rename Hlit into Hkey.
  unfold providerPattern.
  rewrite (Hkey "gpt-4-32k" ltac:(simpl; tauto)).
  rewrite (Hkey "gpt-4" ltac:(simpl; tauto)).
  rewrite (Hkey "gpt-3.5-turbo-16k" ltac:(simpl; tauto)).
  rewrite (Hkey "claude-3-opus" ltac:(simpl; tauto)).
  rewrite (Hkey "claude-3-sonnet" ltac:(simpl; tauto)).
  rewrite (Hkey "claude-3-haiku" ltac:(simpl; tauto)).
  rewrite (Hkey "claude-2" ltac:(simpl; tauto)).
  rewrite (Hkey "claude-instant" ltac:(simpl; tauto)).
  rewrite (Hkey "gemini-1.5-pro" ltac:(simpl; tauto)).
  rewrite (Hkey "gemini-1.5-flash" ltac:(simpl; tauto)).
  rewrite (Hkey "o1-preview" ltac:(simpl; tauto)).
  rewrite (Hkey "o1-mini" ltac:(simpl; tauto)).
  rewrite (Hkey "o1" ltac:(simpl; tauto)).
  repeat case_match; in_literals.
Qed.

Lemma provider_rules_after_failed_scan_witness :
  getBaseModel MODEL_PRICING (Some "claude-sonnet-4")
    ∈ ["gpt-3.5-turbo"; "claude-3-5-sonnet"; "claude-3-haiku";
       "gemini-1.5-flash"; "default"].
Proof.
  apply (provider_rules_after_failed_scan "claude-sonnet-4");
    [discriminate | reflexivity | reflexivity].
Defined.

(** X5. The scan stops at the first key in declaration order: an
    identifier that is not itself a table key and contains ["gpt-4o"],
    in any case, resolves to ["gpt-4o"] at the rate 10, also when it
    contains the longer key ["gpt-4o-mini"]. *)
Theorem gpt4o_key_shadows_longer_keys (model : string) :
  model <> "" ->
  truthy (JS.get MODEL_PRICING model) = false ->
  includes (toLowerCase model) "gpt-4o" = true ->
  getBaseModel MODEL_PRICING (Some model) = "gpt-4o" /\
  resolvePrice MODEL_PRICING (Some model) = VNumber (Num (Q2Qc 10)).
Proof.
  intros Hne Hexact Hin.
  assert (Hbase : getBaseModel MODEL_PRICING (Some model) = "gpt-4o").
  { apply (getBaseModel_scan MODEL_PRICING model "gpt-4o" 0); auto.
    - unfold keyMatches. change (toLowerCase "gpt-4o") with "gpt-4o".
      by rewrite Hin.
    - intros j k Hj. lia. }
  split; [exact Hbase|]. unfold resolvePrice. rewrite Hbase. js_eval.
Qed.

Lemma gpt4o_key_shadows_longer_keys_witness :
  includes (toLowerCase "gpt-4o-mini-2024-07-18") "gpt-4o-mini" = true /\
  getBaseModel MODEL_PRICING (Some "gpt-4o-mini-2024-07-18") = "gpt-4o" /\
  resolvePrice MODEL_PRICING (Some "gpt-4o-mini-2024-07-18") = VNumber (Num (Q2Qc 10)).
Proof.
  split; [reflexivity|].
  apply (gpt4o_key_shadows_longer_keys "gpt-4o-mini-2024-07-18");
    [discriminate | reflexivity | reflexivity].
Defined.

(* ------------------------------------------------------------------ *)
(** ** More on the aggregation loop *)

Lemma add_zero_r (a : number) : add a zero = a.
Proof. destruct a as [x|]; simpl; [|done]. by rewrite Qcplus_0_r. Qed.

(** Every message adds its token count to the token total. *)
Lemma processMessage_tokens (all : list TMessage) (acc : Totals) (m : TMessage) :
  sumTokens (processMessage all acc m) = sumTokens acc + fst (extractTokens m).
Proof.
  unfold processMessage. destruct (extractTokens m) as [tc est]. simpl fst.
  destruct (tc =? 0) eqn:Htc.
  - apply Z.eqb_eq in Htc. lia.
  - by destruct (truthy_string (messageModel all m) || isCreatedByUser m).
Qed.

Lemma fold_tokens (all l : list TMessage) (acc : Totals) :
  sumTokens (fold_left (processMessage all) l acc) = sumTokens acc + sum_tokens l.
Proof.
  revert acc. induction l as [|m l IH]; intros acc; simpl; [lia|].
  rewrite IH, processMessage_tokens. lia.
Qed.

Lemma sum_tokens_perm (l l' : list TMessage) :
  l ≡ₚ l' -> sum_tokens l = sum_tokens l'.
Proof. induction 1; simpl in *; lia. Qed.

(** Well-formedness of a sample message, by evaluation. *)
Ltac well_formed_sample :=
  unfold well_formed, nonneg, model, tokenCount, usage, tokens; simpl;
  split_and!; intros; simplify_eq; first [lia | reflexivity].

(** X6. The token total is the sum of the token counts extracted from
    the messages, whether or not a message is costed; it does not depend
    on the order of the messages. *)
Theorem totalTokens_is_sum (all : list TMessage) :
  sumTokens (aggregate all) = sum_tokens all /\
  (forall now d, costData all now = Some d -> totalTokens d = sum_tokens all) /\
  (forall all', all ≡ₚ all' -> sumTokens (aggregate all') = sumTokens (aggregate all)).
Proof.
  assert (Hsum : forall l, sumTokens (aggregate l) = sum_tokens l).
  { intros l. unfold aggregate. by rewrite fold_tokens. }
  split_and!.
  - apply Hsum.
  - intros now d Hd. destruct all as [|m all]; [discriminate|].
    injection Hd as <-. apply Hsum.
  - intros all' Hperm. rewrite !Hsum. symmetry. by apply sum_tokens_perm.
Qed.

Lemma totalTokens_is_sum_witness :
  sumTokens (aggregate [sampleMessage "m2" false (Some "gpt-4") (Some 30) None;
                        sampleMessage "m1" true None None (Some "hello")])
  = sumTokens (aggregate [sampleMessage "m1" true None None (Some "hello");
                          sampleMessage "m2" false (Some "gpt-4") (Some 30) None]).
Proof.
  apply (totalTokens_is_sum
           [sampleMessage "m1" true None None (Some "hello");
            sampleMessage "m2" false (Some "gpt-4") (Some 30) None]).
  apply Permutation_swap.
Defined.

(** The four ways a well-formed message changes the totals. *)
Lemma processMessage_cases (all : list TMessage) (acc : Totals) (m : TMessage) :
  (forall m', m' ∈ all -> well_formed m') -> well_formed m ->
  let tc := fst (extractTokens m) in
  (tc = 0 /\ processMessage all acc m = acc) \/
  (0 < tc /\ exists k c,
     messageModel all m = Some k /\ (0 < c)%Qc /\
     processMessage all acc m
     = {| sumCost := add (sumCost acc) (Num c);
          sumTokens := sumTokens acc + tc;
          modelCosts := map_set (modelCosts acc) k
                          (add (map_get_or_zero (modelCosts acc) k) (Num c)) |}) \/
  (0 < tc /\ messageModel all m = None /\ isCreatedByUser m = true /\
   exists c, (0 < c)%Qc /\
     processMessage all acc m
     = {| sumCost := add (sumCost acc) (Num c);
          sumTokens := sumTokens acc + tc;
          modelCosts := modelCosts acc |}) \/
  (0 < tc /\ messageModel all m = None /\ isCreatedByUser m = false /\
   processMessage all acc m
   = {| sumCost := sumCost acc;
        sumTokens := sumTokens acc + tc;
        modelCosts := modelCosts acc |}).
Proof.
  intros Hall Hwf tc. pose proof (extractTokens_nonneg _ Hwf) as Hnn.
  subst tc. unfold processMessage. destruct (extractTokens m) as [tc est].
  simpl fst in *. destruct (tc =? 0) eqn:Htc.
  { left. apply Z.eqb_eq in Htc. by split. }
  apply Z.eqb_neq in Htc. right.
  destruct (messageModel all m) as [k|] eqn:Hmm.
  - left. split; [lia|].
    pose proof (messageModel_truthy _ _ _ Hmm) as Hk.
    rewrite Hk. simpl orb. cbv iota. rewrite (modelOrDefault_truthy k Hk).
    destruct (price_positive k (messageModel_own_name _ _ _ Hall Hwf Hmm))
      as (q & -> & Hq).
    destruct (messageCost_positive tc est q ltac:(lia) Hq) as (c & -> & Hc).
    exists k, c. by split_and!.
  - right. simpl truthy_string. simpl orb.
    destruct (isCreatedByUser m).
    + left. split_and!; [lia|done|done|].
      destruct (price_positive "gpt-3.5-turbo" eq_refl) as (q & Hprice & Hq).
      change (modelOrDefault None) with "gpt-3.5-turbo". rewrite Hprice.
      destruct (messageCost_positive tc est q ltac:(lia) Hq) as (c & -> & Hc).
      exists c. by split.
    + right. by split_and!; [lia|..].
Qed.

(** X7. For well-formed messages the total cost is a number that is not
    negative, it never decreases along the loop, and it is positive as
    soon as one message with tokens has a model or is user-authored. *)
Theorem totalCost_nonnegative (all : list TMessage) :
  (forall m, m ∈ all -> well_formed m) ->
  (exists q, sumCost (aggregate all) = Num q /\ (0 <= q)%Qc) /\
  0 <= sumTokens (aggregate all) /\
  (forall m, m ∈ all -> fst (extractTokens m) <> 0 ->
     truthy_string (model m) = true \/ isCreatedByUser m = true ->
     exists q, sumCost (aggregate all) = Num q /\ (0 < q)%Qc).
Proof.
  intros Hall.
  assert (Hstep : forall acc m a,
            m ∈ all -> sumCost acc = Num a ->
            exists a', sumCost (processMessage all acc m) = Num a' /\ (a <= a')%Qc /\
              (fst (extractTokens m) <> 0 ->
               truthy_string (model m) = true \/ isCreatedByUser m = true ->
               (a < a')%Qc)).
  { intros acc m a Hm Ha.
    destruct (processMessage_cases all acc m Hall (Hall m Hm))
      as [[Hz ->]|[(Htc & k & c & Hmm & Hc & ->)|
          [(Htc & Hmm & Hu & c & Hc & ->)|(Htc & Hmm & Hu & ->)]]];
      cbn [sumCost]; rewrite ?Ha; simpl.
    - exists a. split_and!; [done|apply Qcle_refl|]. intros Hne. by destruct Hne.
    - exists (a + c)%Qc. split; [done|].
      assert (a < a + c)%Qc.
      { rewrite <- (Qcplus_0_r a) at 1. by apply Qcplus_lt_mono_l. }
      split; [by apply Qclt_le_weak|done].
    - exists (a + c)%Qc. split; [done|].
      assert (a < a + c)%Qc.
      { rewrite <- (Qcplus_0_r a) at 1. by apply Qcplus_lt_mono_l. }
      split; [by apply Qclt_le_weak|done].
    - exists a. split_and!; [done|apply Qcle_refl|].
      intros _ [Hown|Huser]; [|congruence].
      unfold messageModel in Hmm. rewrite Hown in Hmm.
      destruct (model m) as [[|? ?]|]; discriminate. }
  assert (Hfold : forall l acc a,
            (forall m, m ∈ l -> m ∈ all) -> sumCost acc = Num a ->
            exists a', sumCost (fold_left (processMessage all) l acc) = Num a' /\
              (a <= a')%Qc /\
              (forall m, m ∈ l -> fst (extractTokens m) <> 0 ->
                 truthy_string (model m) = true \/ isCreatedByUser m = true ->
                 (a < a')%Qc)).
  { induction l as [|m l IH]; intros acc a Hl Ha; simpl.
    - exists a. split_and!; [done|apply Qcle_refl|].
      intros m Hm. by apply elem_of_nil in Hm.
    - destruct (Hstep acc m a) as (a1 & Ha1 & Hle1 & Hlt1);
        [apply Hl, elem_of_cons; by left|done|].
      destruct (IH (processMessage all acc m) a1) as (a2 & Ha2 & Hle2 & Hlt2);
        [intros m' Hm'; apply Hl, elem_of_cons; by right|done|].
      exists a2. split_and!; [done|by etrans|].
      intros m' [->|Hm']%elem_of_cons Hne Hcosted.
      + eapply Qclt_le_trans; [by apply Hlt1|done].
      + eapply Qcle_lt_trans; [done|by eapply Hlt2]. }
  destruct (Hfold all noTotals 0%Qc ltac:(done) eq_refl) as (q & Hq & Hle & Hlt).
  split_and!.
  - by exists q.
  - unfold aggregate. rewrite fold_tokens. simpl.
    assert (Hnn : forall l, (forall m, m ∈ l -> well_formed m) -> 0 <= sum_tokens l).
    { induction l as [|m l IH]; intros Hl; simpl; [lia|].
      pose proof (extractTokens_nonneg m (Hl m ltac:(apply elem_of_cons; by left))).
      assert (0 <= sum_tokens l); [|lia].
      apply IH. intros m' Hm'. apply Hl, elem_of_cons. by right. }
    by apply Hnn.
  - intros m Hm Hne Hcosted. exists q. split; [done|]. by eapply Hlt.
Qed.

Lemma totalCost_nonnegative_witness :
  exists q, sumCost (aggregate [sampleMessage "m1" true None None (Some "hello")])
            = Num q /\ (0 <= q)%Qc.
Proof.
  apply (totalCost_nonnegative [sampleMessage "m1" true None None (Some "hello")]).
  intros m ->%list_elem_of_singleton. well_formed_sample.
Defined.

Lemma find_some_exists {A} (p : A -> bool) (l : list A) (x : A) :
  x ∈ l -> p x = true -> exists y, find p l = Some y.
Proof.
  induction l as [|a l IH]; intros Hx Hp.
  - by apply elem_of_nil in Hx.
  - simpl. destruct (p a) eqn:Hpa; [by eexists|].
    apply elem_of_cons in Hx as [->|Hx]; [congruence|]. by apply IH.
Qed.

Lemma costKeys_map_set (m : CostMap) (k : string) (v : number) :
  costKeys (map_set m k v)
  = if decide (k ∈ costKeys m) then costKeys m else (costKeys m ++ [k])%list.
Proof.
  induction m as [|[k' v'] m IH].
  - destruct (decide (k ∈ costKeys [])) as [H|H]; [by apply elem_of_nil in H|done].
  - change (costKeys ((k', v') :: m)) with (k' :: costKeys m).
    cbn [map_set]. destruct (String.eqb k' k) eqn:Hk.
    + apply String.eqb_eq in Hk as ->.
      destruct (decide (k ∈ k :: costKeys m)) as [H|H]; [done|].
      exfalso. apply H, elem_of_cons. by left.
    + apply String.eqb_neq in Hk.
      change (costKeys ((k', v') :: map_set m k v))
        with (k' :: costKeys (map_set m k v)).
      rewrite IH.
      destruct (decide (k ∈ costKeys m)) as [Hin|Hin];
        destruct (decide (k ∈ k' :: costKeys m)) as [Hin'|Hin']; try done.
      * exfalso. apply Hin', elem_of_cons. by right.
      * apply elem_of_cons in Hin' as [Heq|H]; [congruence|contradiction].
Qed.

(** What one message does to the per-model map: nothing, when it has no
    tokens or no effective model, and a booking under its effective model
    otherwise. *)
Lemma processMessage_booking (all : list TMessage) (acc : Totals) (m : TMessage) :
  ((fst (extractTokens m) = 0 \/ messageModel all m = None) /\
   modelCosts (processMessage all acc m) = modelCosts acc) \/
  (exists k v, fst (extractTokens m) <> 0 /\ messageModel all m = Some k /\
               modelCosts (processMessage all acc m) = map_set (modelCosts acc) k v).
Proof.
  unfold processMessage. destruct (extractTokens m) as [tc est]. simpl fst.
  destruct (tc =? 0) eqn:Htc.
  { left. apply Z.eqb_eq in Htc. split; [by left|done]. }
  apply Z.eqb_neq in Htc.
  destruct (messageModel all m) as [k|] eqn:Hmm.
  - pose proof (messageModel_truthy _ _ _ Hmm) as Hk.
    rewrite Hk. simpl orb. cbv iota. cbn [modelCosts].
    rewrite (modelOrDefault_truthy k Hk). right. by eexists _, _.
  - left. simpl truthy_string. simpl orb.
    split; [by right|]. by destruct (isCreatedByUser m).
Qed.

(** X8. The keys of the per-model map are exactly the effective models
    of the messages that have tokens, each of them once: every message
    with tokens and an effective model is booked, under that model, and
    nothing else is. *)
Theorem buckets_are_effective_models (all : list TMessage) :
  (forall k, k ∈ costKeys (modelCosts (aggregate all)) <->
             exists m, m ∈ all /\ fst (extractTokens m) <> 0 /\
                       messageModel all m = Some k) /\
  NoDup (costKeys (modelCosts (aggregate all))).
Proof.
  assert (Hfold : forall l acc,
            NoDup (costKeys (modelCosts acc)) ->
            NoDup (costKeys (modelCosts (fold_left (processMessage all) l acc))) /\
            forall k, k ∈ costKeys (modelCosts (fold_left (processMessage all) l acc)) <->
                      k ∈ costKeys (modelCosts acc) \/
                      exists m, m ∈ l /\ fst (extractTokens m) <> 0 /\
                                messageModel all m = Some k).
  { induction l as [|m l IH]; intros acc Hnd; simpl.
    - split; [done|]. intros k. split; [by left|].
      intros [H|(m & Hm & _)]; [done|]. by apply elem_of_nil in Hm.
    - destruct (processMessage_booking all acc m)
        as [[Hskip Heq]|(k0 & v0 & Htc & Hmm & Heq)].
      + destruct (IH (processMessage all acc m)) as [Hnd' Hkeys];
          [by rewrite Heq|].
        split; [done|]. intros k. rewrite Hkeys, Heq. split.
        * intros [H|(m' & Hm' & Hm'')]; [by left|].
          right. exists m'. split; [apply elem_of_cons; by right|done].
        * intros [H|(m' & [->|Hm']%elem_of_cons & Htc' & Hmm')]; [by left| |].
          { destruct Hskip as [Hz|Hn]; [done|congruence]. }
          { right. by exists m'. }
      + assert (Hnd0 : NoDup (costKeys (map_set (modelCosts acc) k0 v0))).
        { rewrite costKeys_map_set. destruct (decide _) as [Hin|Hin]; [done|].
          apply NoDup_app. split_and!; [done| |apply NoDup_singleton].
          intros x Hx ->%list_elem_of_singleton. contradiction. }
        destruct (IH (processMessage all acc m)) as [Hnd' Hkeys];
          [by rewrite Heq|].
        split; [done|]. intros k. rewrite Hkeys, Heq, costKeys_map_set. split.
        * intros [H|(m' & Hm' & Hm'')].
          { destruct (decide _) as [Hin|Hin]; [by left|].
            apply elem_of_app in H as [H| ->%list_elem_of_singleton]; [by left|].
            right. exists m. split; [apply elem_of_cons; by left|done]. }
          { right. exists m'. split; [apply elem_of_cons; by right|done]. }
        * intros [H|(m' & [->|Hm']%elem_of_cons & Htc' & Hmm')].
          { left. destruct (decide _); [done|]. apply elem_of_app. by left. }
          { left. assert (k = k0) as -> by congruence.
            destruct (decide _) as [Hin|Hin]; [done|].
            apply elem_of_app. right. by apply list_elem_of_singleton. }
          { right. by exists m'. } }
  destruct (Hfold all noTotals (NoDup_nil_2 : NoDup (costKeys (modelCosts noTotals))))
    as [Hnd Hkeys].
  split; [|exact Hnd]. intros k. unfold aggregate. rewrite Hkeys. split.
  - intros [H|H]; [by apply elem_of_nil in H|done].
  - by right.
Qed.

Lemma map_set_key (m : CostMap) (k : string) (v : number) (e : string * number) :
  e ∈ map_set m k v -> (exists v0, (fst e, v0) ∈ m) \/ fst e = k.
Proof.
  induction m as [|[k' v'] m IH]; simpl.
  - intros ->%list_elem_of_singleton. by right.
  - destruct (String.eqb k' k) eqn:Hk.
    + intros [->|H]%elem_of_cons.
      * left. exists v'. apply elem_of_cons. by left.
      * left. exists (snd e). apply elem_of_cons. right. by destruct e.
    + intros [->|H]%elem_of_cons.
      * left. exists v'. apply elem_of_cons. by left.
      * destruct (IH H) as [(v0 & Hv0)|Hkey]; [|by right].
        left. exists v0. apply elem_of_cons. by right.
Qed.

(** The effective model of a message of the sequence is the model field
    of a message of the sequence. *)
Lemma messageModel_named (all : list TMessage) (m : TMessage) (k : string) :
  m ∈ all -> messageModel all m = Some k ->
  exists m', m' ∈ all /\ model m' = Some k.
Proof.
  intros Hm. unfold messageModel. destruct (truthy_string (model m)).
  - intros Hk. by exists m.
  - destruct (find _ all) as [m'|] eqn:Hfind; [|discriminate].
    apply find_some_elem in Hfind as [Hin _]. intros Hk. by exists m'.
Qed.

(** The per-model map changes only by a booking under the effective
    model. *)
Lemma processMessage_costs (all : list TMessage) (acc : Totals) (m : TMessage) :
  modelCosts (processMessage all acc m) = modelCosts acc \/
  exists k v, messageModel all m = Some k /\
              modelCosts (processMessage all acc m) = map_set (modelCosts acc) k v.
Proof.
  unfold processMessage. destruct (extractTokens m) as [tc est].
  destruct (tc =? 0); [by left|].
  destruct (messageModel all m) as [k|] eqn:Hmm.
  - pose proof (messageModel_truthy _ _ _ Hmm) as Hk.
    rewrite Hk. simpl orb. cbv iota. cbn [modelCosts].
    rewrite (modelOrDefault_truthy k Hk). right. by eexists _, _.
  - left. simpl truthy_string. simpl orb. by destruct (isCreatedByUser m).
Qed.

(** Every key of the per-model map is the non-empty model field of a
    message of the sequence. *)
Lemma fold_keys_named (all l : list TMessage) (acc : Totals) :
  (forall m, m ∈ l -> m ∈ all) ->
  (forall k v, (k, v) ∈ modelCosts acc ->
               exists m, m ∈ all /\ model m = Some k /\ k <> "") ->
  forall k v, (k, v) ∈ modelCosts (fold_left (processMessage all) l acc) ->
              exists m, m ∈ all /\ model m = Some k /\ k <> "".
Proof.
  revert acc. induction l as [|m l IH]; intros acc Hl Hacc; simpl; [exact Hacc|].
  apply IH; [intros m' Hm'; apply Hl, elem_of_cons; by right|].
  assert (Hm : m ∈ all) by (apply Hl, elem_of_cons; by left).
  destruct (processMessage_costs all acc m) as [->|(k0 & v0 & Hmm & ->)];
    [exact Hacc|].
  intros k v [(v1 & Hin)|Hkey]%map_set_key; simpl in *.
  - by eapply Hacc.
  - subst k. destruct (messageModel_named all m k0 Hm Hmm) as (m' & Hm' & Hk0).
    exists m'. split_and!; [done|done|].
    intros ->. by pose proof (messageModel_truthy _ _ _ Hmm).
Qed.

Lemma aggregate_keys_named (all : list TMessage) (k : string) (v : number) :
  (k, v) ∈ modelCosts (aggregate all) ->
  exists m, m ∈ all /\ model m = Some k /\ k <> "".
Proof.
  unfold aggregate. apply (fold_keys_named all all noTotals); [auto|].
  intros ? ? Hin. by apply elem_of_nil in Hin.
Qed.

(** X9. The primary model is ["Unknown"] or the model field of one of
    the messages, and it is never the empty string; this holds for every
    sequence of messages. *)
Theorem primaryModel_is_named (all : list TMessage) (now : Z) (d : CostData) :
  costData all now = Some d ->
  primaryModel d <> "" /\
  (primaryModel d = "Unknown" \/
   exists m, m ∈ all /\ model m = Some (primaryModel d)).
Proof.
  intros Hd.
  destruct all as [|m0 all0]; [discriminate|]. injection Hd as <-.
  cbn [primaryModel]. set (all := m0 :: all0) in *.
  unfold findPrimaryModel, zero.
  destruct (primary_scan (modelCosts (aggregate all)) "Unknown" 0%Qc)
    as [[-> _]|(i & k & c & Hi & -> & _)]; simpl.
  - split; [discriminate|by left].
  - apply list_elem_of_lookup_2 in Hi.
    destruct (aggregate_keys_named all k (Num c) Hi) as (m & Hm & Hk & Hne).
    split; [done|]. right. by exists m.
Qed.

Lemma primaryModel_is_named_witness :
  exists d,
    costData [sampleMessage "m1" true None (Some 12) None;
              sampleMessage "m2" false (Some "gpt-4") (Some 30) None] 0 = Some d /\
    primaryModel d <> "".
Proof.
  eexists. split; [reflexivity|].
  apply (primaryModel_is_named
           [sampleMessage "m1" true None (Some 12) None;
            sampleMessage "m2" false (Some "gpt-4") (Some 30) None] 0).
  reflexivity.
Defined.

Lemma find_none_intro {A} (p : A -> bool) (l : list A) :
  (forall x, x ∈ l -> p x = false) -> find p l = None.
Proof.
  induction l as [|a l IH]; intros Hl; simpl; [done|].
  rewrite (Hl a) by (apply elem_of_cons; by left).
  apply IH. intros x Hx. apply Hl, elem_of_cons. by right.
Qed.

(** X10. When no message names a model, nothing is booked per model and
    the primary model is ["Unknown"]; a user-authored message is priced
    as ["gpt-3.5-turbo"], at the rate 1, and every other message costs
    nothing, so the total is the sum of the user messages' costs. *)
Theorem no_model_named (all : list TMessage) :
  (forall m, m ∈ all -> truthy_string (model m) = false) ->
  modelCosts (aggregate all) = [] /\
  findPrimaryModel (modelCosts (aggregate all)) = "Unknown" /\
  sumCost (aggregate all) = fold_left (fun s m => add s (userDefaultCost m)) all zero /\
  resolvePrice MODEL_PRICING (Some "gpt-3.5-turbo") = VNumber (Num 1%Qc).
Proof.
  intros Hnone.
  assert (Hmm : forall m, m ∈ all -> messageModel all m = None).
  { intros m Hm. unfold messageModel. rewrite (Hnone m Hm).
    by rewrite (find_none_intro _ all Hnone). }
  assert (Hstep : forall acc m, m ∈ all ->
            modelCosts (processMessage all acc m) = modelCosts acc /\
            sumCost (processMessage all acc m) = add (sumCost acc) (userDefaultCost m)).
  { intros acc m Hm. unfold processMessage, userDefaultCost, resolvePrice.
    rewrite (Hmm m Hm). destruct (extractTokens m) as [tc est]. simpl fst. simpl snd.
    destruct (tc =? 0).
    - rewrite andb_false_r. by rewrite add_zero_r.
    - simpl truthy_string. simpl orb. rewrite andb_true_r.
      destruct (isCreatedByUser m); simpl; [done|].
      split; [done|]. by rewrite add_zero_r. }
  assert (Hfold : forall l acc, (forall m, m ∈ l -> m ∈ all) ->
            modelCosts (fold_left (processMessage all) l acc) = modelCosts acc /\
            sumCost (fold_left (processMessage all) l acc)
            = fold_left (fun s m => add s (userDefaultCost m)) l (sumCost acc)).
  { induction l as [|m l IH]; intros acc Hl; simpl; [done|].
    destruct (Hstep acc m) as [Hc Hs]; [apply Hl, elem_of_cons; by left|].
    destruct (IH (processMessage all acc m)) as [Hc' Hs'];
      [intros m' Hm'; apply Hl, elem_of_cons; by right|].
    by rewrite Hc', Hs', Hc, Hs. }
  destruct (Hfold all noTotals ltac:(auto)) as [Hc Hs].
  unfold aggregate. rewrite Hc, Hs. split_and!; try reflexivity. js_eval.
Qed.

Lemma no_model_named_witness :
  modelCosts (aggregate [sampleMessage "m1" true None (Some 12) None;
                         sampleMessage "m2" false None (Some 30) None]) = [].
Proof.
  apply (no_model_named [sampleMessage "m1" true None (Some 12) None;
                         sampleMessage "m2" false None (Some 30) None]).
  intros m Hm. apply list_elem_of_In in Hm. simpl in Hm.
  destruct Hm as [<-|[<-|[]]]; reflexivity.
Defined.

(** [costData] on a sequence that is not empty. *)
Lemma costData_nonempty (m0 : TMessage) (l : list TMessage) (now : Z) :
  costData (m0 :: l) now
  = Some {| totalCost := formatCost (sumCost (aggregate (m0 :: l)));
            totalCostRaw := sumCost (aggregate (m0 :: l));
            primaryModel := findPrimaryModel (modelCosts (aggregate (m0 :: l)));
            totalTokens := sumTokens (aggregate (m0 :: l));
            lastUpdated := now |}.
Proof. reflexivity. Qed.

(** An inherited property name is not empty and is no key of the table. *)
Lemma inherited_name (k : string) :
  inherited k = true ->
  truthy_string (Some k) = true /\ JS.get MODEL_PRICING k = VObject.
Proof.
  intros Hk. unfold JS.get. rewrite Hk.
  unfold inherited in Hk. apply existsb_exists in Hk as (x & Hx & Heq).
  apply String.eqb_eq in Heq as ->. simpl in Hx.
  repeat (destruct Hx as [<-|Hx]; [by split|]). destruct Hx.
Qed.

Lemma add_NaN_r (a : number) : add a NaN = NaN.
Proof. by destruct a. Qed.

Lemma messageCost_object (tc : Z) (est : bool) : messageCost tc est VObject = NaN.
Proof. unfold messageCost. by destruct est. Qed.

(** Once the total is NaN it stays NaN. *)
Lemma processMessage_NaN (all : list TMessage) (acc : Totals) (m : TMessage) :
  sumCost acc = NaN -> sumCost (processMessage all acc m) = NaN.
Proof.
  intros Hacc. unfold processMessage. destruct (extractTokens m) as [tc est].
  destruct (tc =? 0); [done|].
  destruct (truthy_string (messageModel all m) || isCreatedByUser m);
    cbn [sumCost]; by rewrite Hacc.
Qed.

(** X11. A message with tokens whose model is the name of a property
    inherited from [Object.prototype] makes the total cost NaN, whatever
    the other messages are: the cost is displayed as ["$NaN"], on the red
    badge. *)
Theorem inherited_model_poisons_total (all : list TMessage) (m : TMessage) (k : string) :
  m ∈ all -> model m = Some k -> inherited k = true ->
  fst (extractTokens m) <> 0 ->
  sumCost (aggregate all) = NaN /\
  forall now, exists d,
    costData all now = Some d /\ totalCostRaw d = NaN /\ totalCost d = "$NaN" /\
    forall NEW_CONVO c, c <> "" -> c <> NEW_CONVO ->
      render NEW_CONVO (Some c) (Some d) = Badge "$NaN" "text-red-600 dark:text-red-400".
Proof.
  intros Hm Hmodel Hinh Htc.
  destruct (inherited_name k Hinh) as [Hk Hget].
  assert (Hstep : forall acc, sumCost (processMessage all acc m) = NaN).
  { intros acc. unfold processMessage.
    destruct (extractTokens m) as [tc est]. simpl in Htc.
    apply Z.eqb_neq in Htc. rewrite Htc.
    assert (Hmm : messageModel all m = Some k).
    { unfold messageModel. by rewrite Hmodel, Hk. }
    rewrite Hmm, Hk. simpl orb. cbv iota. rewrite (modelOrDefault_truthy k Hk).
    assert (Hbase : getBaseModel MODEL_PRICING (Some k) = k).
    { destruct k as [|c s]; [discriminate|].
      by rewrite getBaseModel_nonempty, Hget. }
    rewrite Hbase. unfold priceOf. rewrite Hget. unfold JS.or. simpl truthy.
    cbv iota. rewrite messageCost_object. cbn [sumCost]. apply add_NaN_r. }
  assert (Hfold : forall l acc,
            sumCost acc = NaN \/ m ∈ l ->
            sumCost (fold_left (processMessage all) l acc) = NaN).
  { induction l as [|m' l IH]; intros acc Hor; simpl.
    - destruct Hor as [Hacc|Hin]; [done|]. by apply elem_of_nil in Hin.
    - apply IH. destruct Hor as [Hacc|[->|Hin]%elem_of_cons].
      + left. by apply processMessage_NaN.
      + left. apply Hstep.
      + by right. }
  assert (Hsum : sumCost (aggregate all) = NaN).
  { unfold aggregate. apply Hfold. by right. }
  split; [exact Hsum|]. intros now.
  destruct all as [|m0 all0]; [by apply elem_of_nil in Hm|].
  rewrite costData_nonempty. eexists. split; [reflexivity|].
  cbn [totalCostRaw totalCost]. rewrite Hsum.
  split_and!; [done|done|].
  intros NEW_CONVO [|a s] Hne Hnew; [done|]. unfold render. cbv beta iota.
  apply String.eqb_neq in Hnew. by rewrite Hnew.
Qed.

Lemma inherited_model_poisons_total_witness :
  sumCost (aggregate [sampleMessage "m1" true None (Some 12) None;
                      sampleMessage "m2" false (Some "toString") (Some 30) None]) = NaN.
Proof.
  apply (inherited_model_poisons_total _
           (sampleMessage "m2" false (Some "toString") (Some 30) None) "toString").
  - apply list_elem_of_In. simpl. tauto.
  - reflexivity.
  - reflexivity.
  - simpl. lia.
Defined.

(** X12. Messages from which no token count can be extracted change
    nothing: the totals stay at their initial values, the cost is shown
    as ["$0.00"] and the component renders the placeholder. *)
Theorem tokenless_messages_cost_nothing (all : list TMessage) :
  (forall m, m ∈ all -> fst (extractTokens m) = 0) ->
  aggregate all = noTotals /\
  forall now d, costData all now = Some d ->
    totalCostRaw d = zero /\ totalCost d = "$0.00" /\ totalTokens d = 0 /\
    primaryModel d = "Unknown" /\
    forall NEW_CONVO c, c <> "" -> c <> NEW_CONVO ->
      render NEW_CONVO (Some c) (Some d) = Placeholder.
Proof.
  intros Hzero.
  assert (Hfold : forall l acc, (forall m, m ∈ l -> m ∈ all) ->
                                fold_left (processMessage all) l acc = acc).
  { induction l as [|m l IH]; intros acc Hl; simpl; [done|].
    assert (Hm : processMessage all acc m = acc).
    { unfold processMessage.
      pose proof (Hzero m ltac:(apply Hl, elem_of_cons; by left)) as Hz.
      destruct (extractTokens m) as [tc est]. simpl in Hz. by subst tc. }
    rewrite Hm. apply IH. intros m' Hm'. apply Hl, elem_of_cons. by right. }
  assert (Hagg : aggregate all = noTotals).
  { unfold aggregate. apply (Hfold all noTotals). auto. }
  split; [exact Hagg|]. intros now d Hd.
  destruct all as [|m0 all0]; [discriminate|]. injection Hd as <-.
  cbn [totalCostRaw totalCost totalTokens primaryModel]. rewrite Hagg.
  split_and!; try reflexivity.
  intros NEW_CONVO [|a s] Hne Hnew; [done|]. unfold render. cbv beta iota.
  apply String.eqb_neq in Hnew. by rewrite Hnew.
Qed.

Lemma tokenless_messages_cost_nothing_witness :
  aggregate [sampleMessage "m1" true None None None;
             sampleMessage "m2" false (Some "gpt-4") (Some 0) (Some "")] = noTotals.
Proof.
  apply (tokenless_messages_cost_nothing
           [sampleMessage "m1" true None None None;
            sampleMessage "m2" false (Some "gpt-4") (Some 0) (Some "")]).
  intros m Hm. apply list_elem_of_In in Hm. simpl in Hm.
  destruct Hm as [<-|[<-|[]]]; reflexivity.
Defined.

(** X13. At a price that is not negative the cost of a message does not
    decrease when its token count grows, and an estimated count that is
    not negative costs at most what the same count costs when it is
    reported, and not less than nothing. *)
Theorem messageCost_monotone (a b : Z) (q : Qc) :
  (0 <= q)%Qc -> a <= b ->
  (forall est, exists ca cb,
     messageCost a est (VNumber (Num q)) = Num ca /\
     messageCost b est (VNumber (Num q)) = Num cb /\ (ca <= cb)%Qc) /\
  (0 <= a ->
   exists ce cr,
     messageCost a true (VNumber (Num q)) = Num ce /\
     messageCost a false (VNumber (Num q)) = Num cr /\
     (0 <= ce)%Qc /\ (ce <= cr)%Qc).
Proof.
  intros Hq Hab.
  assert (Hinv : (0 <= / Q2Qc 1000000)%Qc) by (by apply Qclt_le_weak).
  assert (Hdisc : (0 <= Q2Qc 0.85)%Qc) by (by apply Qclt_le_weak).
  assert (Hone : (Q2Qc 0.85 <= 1)%Qc) by (by apply Qclt_le_weak).
  assert (Hmono : forall x y : Qc, (x <= y)%Qc ->
            (x / Q2Qc 1000000 * q <= y / Q2Qc 1000000 * q)%Qc).
  { intros x y Hxy. unfold Qcdiv.
    apply Qcmult_le_mono_nonneg_r; [exact Hq|].
    apply Qcmult_le_mono_nonneg_r; [exact Hinv|exact Hxy]. }
  split.
  - intros est. unfold messageCost, ofZ. apply Z2Qc_inj_le in Hab.
    destruct est; simpl.
    + eexists _, _. split_and!; [reflexivity|reflexivity|].
      apply Hmono. by apply Qcmult_le_mono_nonneg_r.
    + eexists _, _. split_and!; [reflexivity|reflexivity|]. by apply Hmono.
  - intros Ha. unfold messageCost, ofZ. apply Z2Qc_inj_le in Ha.
    rewrite Z2Qc_inj_0 in Ha. simpl. eexists _, _.
    split_and!; [reflexivity|reflexivity| |].
    + unfold Qcdiv. apply Qcmult_nonneg_nonneg; [|exact Hq].
      apply Qcmult_nonneg_nonneg; [|exact Hinv].
      by apply Qcmult_nonneg_nonneg.
    + apply Hmono. rewrite <- (Qcmult_1_r (Qc_of_Z a)) at 2.
      by apply Qcmult_le_mono_nonneg_l.
Qed.

Lemma messageCost_monotone_witness :
  exists ca cb,
    messageCost 10 true (VNumber (Num (Q2Qc 45))) = Num ca /\
    messageCost 20 true (VNumber (Num (Q2Qc 45))) = Num cb /\ (ca <= cb)%Qc.
Proof.
  apply (messageCost_monotone 10 20 (Q2Qc 45)); [|lia].
  intros H. inversion H.
Defined.

(* ------------------------------------------------------------------ *)
(** ** More on the streaming merge *)

Lemma elem_of_alter {A} (f : A -> A) (i : nat) (l : list A) (x : A) :
  x ∈ alter f i l -> x ∈ l \/ exists old, old ∈ l /\ x = f old.
Proof.
  revert i. induction l as [|a l IH]; intros i; simpl.
  - intros H. by apply elem_of_nil in H.
  - destruct i as [|i]; simpl.
    + intros [->|H]%elem_of_cons.
      * right. exists a. split; [apply elem_of_cons; by left|done].
      * left. apply elem_of_cons. by right.
    + intros [->|H]%elem_of_cons.
      * left. apply elem_of_cons. by left.
      * destruct (IH i H) as [Hl|(old & Hold & ->)].
        { left. apply elem_of_cons. by right. }
        { right. exists old. split; [apply elem_of_cons; by right|done]. }
Qed.

(** X14. The streaming message is taken from the first of the three
    slots, in the order 0, 1, 2, that holds a message of the observed
    conversation: slot 1 is taken only when slot 0 holds no such message,
    slot 2 only when neither slot 0 nor slot 1 does.  A slot of another
    conversation is never taken, and without an observed conversation
    none is.  So every message of the merged sequence is a cached message
    or belongs to the observed conversation. *)
Theorem latestMessage_selection (s0 s1 s2 : option TMessage) (cid : option string) :
  (forall m, latestMessage s0 s1 s2 cid = Some m ->
     cid = Some (conversationId m) /\
     (s0 = Some m \/ s1 = Some m \/ s2 = Some m)) /\
  (forall m, s0 = Some m -> cid = Some (conversationId m) ->
     latestMessage s0 s1 s2 cid = Some m) /\
  (forall m, s1 = Some m -> cid = Some (conversationId m) ->
     (forall m0, s0 = Some m0 -> cid <> Some (conversationId m0)) ->
     latestMessage s0 s1 s2 cid = Some m) /\
  (forall m, s2 = Some m -> cid = Some (conversationId m) ->
     (forall m0, s0 = Some m0 -> cid <> Some (conversationId m0)) ->
     (forall m1, s1 = Some m1 -> cid <> Some (conversationId m1)) ->
     latestMessage s0 s1 s2 cid = Some m) /\
  (forall m, latestMessage s0 s1 s2 cid = None ->
     s0 = Some m \/ s1 = Some m \/ s2 = Some m ->
     cid <> Some (conversationId m)) /\
  (cid = None -> latestMessage s0 s1 s2 cid = None) /\
  (forall messages x,
     x ∈ allMessages messages (latestMessage s0 s1 s2 cid) cid ->
     x ∈ messages \/ cid = Some (conversationId x)).
Proof.
  assert (Hmatch : forall (s : option TMessage) m,
            s = Some m -> slotMatches s cid = true -> cid = Some (conversationId m)).
  { intros s m -> H. destruct cid as [c|]; simpl in H; [|done].
    by apply String.eqb_eq in H as ->. }
  assert (Hno : forall (s : option TMessage) m,
            s = Some m -> slotMatches s cid = false -> cid <> Some (conversationId m)).
  { intros s m -> H ->. simpl in H. by rewrite String.eqb_refl in H. }
  assert (Hmiss : forall (s : option TMessage) c,
            cid = Some c ->
            (forall m0, s = Some m0 -> cid <> Some (conversationId m0)) ->
            slotMatches s cid = false).
  { intros s c -> Hs. destruct s as [m0|]; [|reflexivity]. simpl.
    apply String.eqb_neq. intros Heq. apply (Hs m0 eq_refl). by rewrite Heq. }
  assert (Hsel : forall m, latestMessage s0 s1 s2 cid = Some m ->
            cid = Some (conversationId m) /\
            (s0 = Some m \/ s1 = Some m \/ s2 = Some m)).
  { intros m. unfold latestMessage.
    destruct (slotMatches s0 cid) eqn:H0; [intros ->; split; eauto|].
    destruct (slotMatches s1 cid) eqn:H1; [intros ->; split; eauto|].
    destruct (slotMatches s2 cid) eqn:H2; [intros ->; split; eauto|].
    discriminate. }
  split_and!.
  - exact Hsel.
  - intros m -> ->. unfold latestMessage. simpl. by rewrite String.eqb_refl.
  - intros m -> -> Hs0. unfold latestMessage.
    rewrite (Hmiss s0 _ eq_refl Hs0). simpl. by rewrite String.eqb_refl.
  - intros m -> -> Hs0 Hs1. unfold latestMessage.
    rewrite (Hmiss s0 _ eq_refl Hs0), (Hmiss s1 _ eq_refl Hs1).
    simpl. by rewrite String.eqb_refl.
  - intros m. unfold latestMessage.
    destruct (slotMatches s0 cid) eqn:H0.
    { intros -> Hor. destruct cid; [discriminate|]. discriminate. }
    destruct (slotMatches s1 cid) eqn:H1.
    { intros -> Hor. destruct cid; [|discriminate]. by destruct s0. }
    destruct (slotMatches s2 cid) eqn:H2.
    { intros -> Hor. destruct cid; [|discriminate]. by destruct s0. }
    intros _ [H|[H|H]]; eauto.
  - intros ->. unfold latestMessage. destruct s0, s1, s2; reflexivity.
  - intros messages x.
    destruct (latestMessage s0 s1 s2 cid) as [lm|] eqn:Hlm; [|by left].
    destruct (Hsel lm eq_refl) as [Hcid _]. unfold allMessages.
    destruct (slotMatches (Some lm) cid); [|by left].
    destruct (findIndex _ messages) as [i|].
    + intros [Hx|(old & _ & ->)]%elem_of_alter; [by left|]. by right.
    + destruct (truthy_string (text lm)); [|by left].
      intros [Hx| ->%list_elem_of_singleton]%elem_of_app; [by left|by right].
Qed.

Lemma latestMessage_selection_witness :
  latestMessage None (Some (sampleMessage "m8" false None None (Some "abc")))
    (Some (sampleMessage "m9" false None None (Some "xyz"))) (Some "c1")
  = Some (sampleMessage "m8" false None None (Some "abc")).
Proof.
  destruct (latestMessage_selection None
              (Some (sampleMessage "m8" false None None (Some "abc")))
              (Some (sampleMessage "m9" false None None (Some "xyz"))) (Some "c1"))
    as (_ & _ & Hslot1 & _).
  apply Hslot1; [reflexivity|reflexivity|]. intros m0 H. discriminate H.
Defined.

Lemma overlay_idempotent (old lm : TMessage) :
  overlay (overlay old lm) lm = overlay old lm.
Proof.
  destruct lm as [cid mid byUser [| |m] [| |c] [| |u] [| |k] [| |t]]; reflexivity.
Qed.

Lemma overlay_self (lm : TMessage) : overlay lm lm = lm.
Proof.
  destruct lm as [cid mid byUser [| |m] [| |c] [| |u] [| |k] [| |t]]; reflexivity.
Qed.

Lemma findIndex_alter {A} (p : A -> bool) (f : A -> A) (l : list A) (i : nat) :
  findIndex p l = Some i -> (forall x, p x = true -> p (f x) = true) ->
  findIndex p (alter f i l) = Some i.
Proof.
  intros Hfi Hf. revert i Hfi. induction l as [|a l IH]; intros i; simpl; [done|].
  destruct (p a) eqn:Hpa.
  - intros [= <-]. simpl. by rewrite (Hf a Hpa).
  - destruct (findIndex p l) as [j|] eqn:Hj; simpl; [|done].
    intros [= <-]. specialize (IH j eq_refl).
    change (alter f (S j) (a :: l)) with (a :: alter f j l).
    simpl. by rewrite Hpa, IH.
Qed.

Lemma alter_twice {A} (f : A -> A) (i : nat) (l : list A) :
  (forall x, f (f x) = f x) -> alter f i (alter f i l) = alter f i l.
Proof.
  intros Hf. revert i. induction l as [|a l IH]; intros [|i]; simpl; try done.
  - by rewrite Hf.
  - f_equal. apply IH.
Qed.

Lemma findIndex_app_last {A} (p : A -> bool) (l : list A) (x : A) :
  findIndex p l = None -> p x = true ->
  findIndex p (l ++ [x])%list = Some (List.length l).
Proof.
  intros Hfi Hx. induction l as [|a l IH]; simpl in *.
  - by rewrite Hx.
  - destruct (p a); [done|].
    destruct (findIndex p l); [done|]. by rewrite IH.
Qed.

Lemma alter_app_last {A} (f : A -> A) (l : list A) (x : A) :
  alter f (List.length l) (l ++ [x])%list = (l ++ [f x])%list.
Proof. induction l as [|a l IH]; simpl; [done|]. f_equal. apply IH. Qed.

(** X15. Merging the same streaming message a second time changes
    nothing: a streaming message is never entered twice. *)
Theorem allMessages_idempotent (messages : list TMessage) (latest : option TMessage)
    (cid : option string) :
  allMessages (allMessages messages latest cid) latest cid
  = allMessages messages latest cid.
Proof.
  destruct latest as [lm|]; [|reflexivity]. unfold allMessages.
  destruct (slotMatches (Some lm) cid) eqn:Hslot; [|reflexivity].
  set (sameId := fun m => String.eqb (messageId m) (messageId lm)).
  destruct (findIndex sameId messages) as [i|] eqn:Hfi.
  - rewrite (findIndex_alter sameId _ messages i Hfi).
    + apply alter_twice. intros x. apply overlay_idempotent.
    + intros x _. unfold sameId. simpl. apply String.eqb_refl.
  - destruct (truthy_string (text lm)) eqn:Htext.
    + rewrite (findIndex_app_last sameId messages lm Hfi).
      * by rewrite alter_app_last, overlay_self.
      * unfold sameId. apply String.eqb_refl.
    + by rewrite Hfi.
Qed.

Lemma map_messageId_alter (lm : TMessage) (l : list TMessage) (i : nat) :
  findIndex (fun m => String.eqb (messageId m) (messageId lm)) l = Some i ->
  messageIds (alter (fun old => overlay old lm) i l) = messageIds l.
Proof.
  revert i. induction l as [|a l IH]; intros i; simpl; [done|].
  destruct (String.eqb (messageId a) (messageId lm)) eqn:Ha.
  - intros [= <-]. simpl. apply String.eqb_eq in Ha. by rewrite Ha.
  - destruct (findIndex _ l) as [j|] eqn:Hj; simpl; [|done].
    intros [= <-]. simpl. f_equal. by apply IH.
Qed.

(** X16. The merge keeps the ids of the cached messages, in order, and
    adds at most the id of the streaming message, which is then new: the
    merged sequence is as long as the cached one or one longer, and
    distinct message ids stay distinct. *)
Theorem allMessages_keeps_ids (messages : list TMessage) (lm : TMessage)
    (cid : option string) :
  (messageIds (allMessages messages (Some lm) cid) = messageIds messages \/
   (messageIds (allMessages messages (Some lm) cid)
    = (messageIds messages ++ [messageId lm])%list /\
    (messageId lm ∉ messageIds messages) /\
    truthy_string (text lm) = true)) /\
  (List.length messages <= List.length (allMessages messages (Some lm) cid)
   <= S (List.length messages))%nat /\
  (NoDup (messageIds messages) ->
   NoDup (messageIds (allMessages messages (Some lm) cid))).
Proof.
  assert (Hids :
    messageIds (allMessages messages (Some lm) cid) = messageIds messages \/
    (messageIds (allMessages messages (Some lm) cid)
     = (messageIds messages ++ [messageId lm])%list /\
     (messageId lm ∉ messageIds messages) /\
     truthy_string (text lm) = true)).
  { unfold allMessages. destruct (slotMatches (Some lm) cid); [|by left].
    destruct (findIndex _ messages) as [i|] eqn:Hfi.
    - left. by apply map_messageId_alter.
    - destruct (truthy_string (text lm)) eqn:Htext; [|by left].
      right. split_and!; [|  |done].
      + unfold messageIds. by rewrite map_app.
      + unfold messageIds. intros (m & Hid & Hm)%list_elem_of_fmap.
        pose proof (findIndex_None _ _ Hfi m Hm) as Hp. simpl in Hp.
        by rewrite <- Hid, String.eqb_refl in Hp. }
  assert (Hlen : forall l : list TMessage, List.length (messageIds l) = List.length l).
  { intros l. unfold messageIds. apply length_map. }
  split_and!.
  - exact Hids.
  - rewrite <- (Hlen messages), <- (Hlen (allMessages _ _ _)).
    destruct Hids as [->|(-> & _)]; [lia|]. rewrite length_app. simpl. lia.
  - rewrite <- (Hlen messages), <- (Hlen (allMessages _ _ _)).
    destruct Hids as [->|(-> & _)]; [lia|]. rewrite length_app. simpl. lia.
  - intros Hnd. destruct Hids as [->|(-> & Hnew & _)]; [done|].
    apply NoDup_app. split_and!; [done| |apply NoDup_singleton].
    intros x Hx ->%list_elem_of_singleton. contradiction.
Qed.

Lemma allMessages_keeps_ids_witness :
  NoDup (messageIds
           (allMessages [sampleMessage "m1" true None (Some 12) None]
              (Some (sampleMessage "m2" false None None (Some "abc"))) (Some "c1"))).
Proof.
  apply (allMessages_keeps_ids [sampleMessage "m1" true None (Some 12) None]).
  simpl. apply NoDup_singleton.
Defined.

(* ------------------------------------------------------------------ *)
(** ** More on the estimate and the display *)

(** X17. The estimate is the least count of four-character tokens that
    covers the text: it is 0 only for the empty text, and four times the
    estimate is at least the length and exceeds it by less than 4.  So a
    message that has nothing but a non-empty text is never skipped by
    the loop. *)
Theorem estimateTokens_bounds (t : string) :
  0 <= estimateTokens t /\
  (estimateTokens t = 0 <-> t = "") /\
  Z.of_nat (String.length t) <= 4 * estimateTokens t < Z.of_nat (String.length t) + 4 /\
  (forall message,
     tokenCount message = None -> usage message = None -> tokens message = None ->
     text message = Some t -> t <> "" ->
     fst (extractTokens message) <> 0 /\ snd (extractTokens message) = true).
Proof.
  rewrite estimateTokens_ceil.
  assert (Hlen : t = "" <-> Z.of_nat (String.length t) = 0).
  { destruct t; simpl; split; intros H; try done; lia. }
  set (n := Z.of_nat (String.length t)) in *.
  assert (Hn : 0 <= n) by (unfold n; lia).
  assert (Hdiv : n <= 4 * ((n + 3) / 4) < n + 4).
  { Z.div_mod_to_equations. lia. }
  split_and!; try lia.
  - rewrite Hlen. lia.
  - intros message Hc Hu Hk Ht Hne. unfold extractTokens.
    rewrite Hc, Hu, Hk, Ht. destruct t as [|c s] eqn:Heq; [done|].
    rewrite estimateTokens_ceil. fold n. simpl. split; [|done].
    assert (n <> 0) by (intros H0; by apply Hlen in H0). lia.
Qed.

Lemma estimateTokens_bounds_witness :
  fst (extractTokens (sampleMessage "m1" false None None (Some "a"))) <> 0 /\
  snd (extractTokens (sampleMessage "m1" false None None (Some "a"))) = true.
Proof.
  apply (estimateTokens_bounds "a"); try reflexivity. discriminate.
Defined.

(** X18. A cost from 0.001 on, below the magnitude 10^21 from which
    [toFixed] turns to exponent notation, is displayed as a dollar sign,
    an integer part, a point and a fixed number of decimals: four below
    0.01, three below 1, two otherwise. *)
Theorem formatCost_decimals (c : Qc) :
  (Q2Qc 0.001 <= c)%Qc -> (c < Qc_of_Z (10 ^ 21))%Qc ->
  exists a b,
    formatCost (Num c) = "$" ++ a ++ "." ++ b /\
    (1 <= String.length a)%nat /\
    String.length b
    = (if bool_decide (c < Q2Qc 0.01)%Qc then 4
       else if bool_decide (c < 1)%Qc then 3 else 2)%nat.
Proof.
  intros Hlow _.
  assert (H1 : (0 < Q2Qc 0.001)%Qc) by reflexivity.
  assert (Hpos : (0 <= c)%Qc).
  { apply Qclt_le_weak. by eapply Qclt_le_trans. }
  unfold formatCost.
  rewrite (is_zero_above c _ H1 Hlow), (ltb_false _ _ Hlow).
  unfold ltb. destruct (bool_decide (c < Q2Qc 0.01)%Qc).
  - destruct (toFixed_decimals c 4 Hpos) as (a & b & -> & Hb & Ha). by exists a, b.
  - destruct (bool_decide (c < 1)%Qc).
    + destruct (toFixed_decimals c 3 Hpos) as (a & b & -> & Hb & Ha). by exists a, b.
    + destruct (toFixed_decimals c 2 Hpos) as (a & b & -> & Hb & Ha). by exists a, b.
Qed.

Lemma formatCost_decimals_witness :
  exists a b,
    formatCost (Num (Q2Qc 0.25)) = "$" ++ a ++ "." ++ b /\
    (1 <= String.length a)%nat /\ String.length b = 3%nat.
Proof.
  apply (formatCost_decimals (Q2Qc 0.25)).
  - intros H. inversion H.
  - reflexivity.
Defined.

(** X19. The component renders nothing exactly when there is no observed
    conversation, its id is the empty string, or it is the id of a new
    conversation; the messages play no part in that. *)
Theorem hidden_without_conversation (NEW_CONVO : string) (cid : option string)
    (s0 s1 s2 : option TMessage) (messages : list TMessage) (now : Z) :
  ConversationCost NEW_CONVO cid s0 s1 s2 messages now = Nothing <->
  cid = None \/ cid = Some "" \/ cid = Some NEW_CONVO.
Proof.
  unfold ConversationCost, render.
  destruct cid as [[|a s]|].
  - split; auto.
  - destruct (String.eqb (String a s) NEW_CONVO) eqn:Hnew.
    + apply String.eqb_eq in Hnew as <-. split; auto.
    + apply String.eqb_neq in Hnew. split.
      * destruct (costData _ now) as [d|]; [|discriminate].
        destruct (is_zero (totalCostRaw d)); discriminate.
      * intros [H|[H|H]]; try discriminate. congruence.
  - split; auto.
Qed.

(* ------------------------------------------------------------------ *)
(** ** Conversations with one model *)

Lemma map_set_nonempty (m : CostMap) (k : string) (v : number) : map_set m k v <> [].
Proof. destruct m as [|[k' v'] m]; simpl; [done|]. by destruct (String.eqb k' k). Qed.

(** Once a cost is booked the per-model map is never empty again. *)
Lemma fold_costs_nonempty (all l : list TMessage) (acc : Totals) :
  modelCosts acc <> [] ->
  modelCosts (fold_left (processMessage all) l acc) <> [].
Proof.
  revert acc. induction l as [|m l IH]; intros acc Hacc; simpl; [done|].
  apply IH. destruct (processMessage_costs all acc m) as [->|(k & v & _ & ->)];
    [done|apply map_set_nonempty].
Qed.

(** X20. In a well-formed conversation whose messages name one model
    only, and in which some message has tokens, the primary model is
    that model. *)
Theorem single_model_is_primary (all : list TMessage) (k : string) (m0 m1 : TMessage) :
  (forall m, m ∈ all -> well_formed m) ->
  (forall m, m ∈ all -> truthy_string (model m) = true -> model m = Some k) ->
  m0 ∈ all -> truthy_string (model m0) = true ->
  m1 ∈ all -> fst (extractTokens m1) <> 0 ->
  findPrimaryModel (modelCosts (aggregate all)) = k /\
  forall now d, costData all now = Some d -> primaryModel d = k.
Proof.
  intros Hall Hone Hm0 Hnamed Hm1 Htok.
  assert (Hne : modelCosts (aggregate all) <> []).
  { unfold aggregate. apply list_elem_of_split in Hm1 as (l1 & l2 & Hsplit).
    rewrite Hsplit at 2. rewrite fold_left_app. simpl.
    apply fold_costs_nonempty.
    destruct (processMessage_cases all (fold_left (processMessage all) l1 noTotals) m1
                Hall (Hall m1 ltac:(rewrite Hsplit; apply elem_of_app; right;
                                    apply elem_of_cons; by left)))
      as [[Hz _]|[(_ & k1 & c & _ & _ & ->)|[(_ & Hnone & _)|(_ & Hnone & _)]]].
    - done.
    - apply map_set_nonempty.
    - exfalso. unfold messageModel in Hnone.
      destruct (truthy_string (model m1)) eqn:Hown.
      + destruct (model m1); discriminate.
      + destruct (find_some_exists (fun m => truthy_string (model m)) all m0 Hm0 Hnamed)
          as (y & Hy).
        rewrite Hy in Hnone. apply find_some_elem in Hy as [_ Hy].
        destruct (model y); discriminate.
    - exfalso. unfold messageModel in Hnone.
      destruct (truthy_string (model m1)) eqn:Hown.
      + destruct (model m1); discriminate.
      + destruct (find_some_exists (fun m => truthy_string (model m)) all m0 Hm0 Hnamed)
          as (y & Hy).
        rewrite Hy in Hnone. apply find_some_elem in Hy as [_ Hy].
        destruct (model y); discriminate. }
  assert (Hprimary : findPrimaryModel (modelCosts (aggregate all)) = k).
  { unfold findPrimaryModel, zero.
    destruct (primary_scan (modelCosts (aggregate all)) "Unknown" 0%Qc)
      as [[_ Hle]|(i & k' & c & Hi & -> & _)].
    - exfalso. destruct (modelCosts (aggregate all)) as [|[k' v'] rest] eqn:Hmap; [done|].
      destruct (aggregate_positive all Hall k' v') as (q & -> & Hq).
      { rewrite Hmap. apply elem_of_cons. by left. }
      specialize (Hle 0%nat k' q eq_refl). by apply Qcle_not_lt in Hle.
    - simpl. apply list_elem_of_lookup_2 in Hi.
      destruct (aggregate_keys_named all k' (Num c) Hi) as (m & Hm & Hk & Hnonempty).
      assert (Htruthy : truthy_string (model m) = true).
      { rewrite Hk. by destruct k'. }
      specialize (Hone m Hm Htruthy). congruence. }
  split; [exact Hprimary|]. intros now d Hd.
  destruct all as [|a l]; [discriminate|]. by injection Hd as <-.
Qed.

Lemma single_model_is_primary_witness :
  findPrimaryModel
    (modelCosts (aggregate [sampleMessage "m1" true None (Some 12) None;
                            sampleMessage "m2" false (Some "gpt-4") (Some 30) None]))
  = "gpt-4".
Proof.
  apply (single_model_is_primary
           [sampleMessage "m1" true None (Some 12) None;
            sampleMessage "m2" false (Some "gpt-4") (Some 30) None]
           "gpt-4"
           (sampleMessage "m2" false (Some "gpt-4") (Some 30) None)
           (sampleMessage "m1" true None (Some 12) None)).
  - intros m Hm. apply list_elem_of_In in Hm. simpl in Hm.
    destruct Hm as [<-|[<-|[]]]; well_formed_sample.
  - intros m Hm. apply list_elem_of_In in Hm. simpl in Hm.
    destruct Hm as [<-|[<-|[]]]; [discriminate|reflexivity].
  - apply list_elem_of_In. simpl. tauto.
  - reflexivity.
  - apply list_elem_of_In. simpl. tauto.
  - simpl. lia.
Defined.
